(** * The plugin runner and its health monitor (package [control])

    A shallow embedding of [control/runner.go] and [control/monitor.go]:
    the identity allocator, the health monitor with its cancellation
    channel and background loop, the admission check, the plugin start
    sequence and the runner's start, stop and event handling.

    Go values are modelled as follows.
    - [int] is a 64-bit two's complement integer: a [Z] with the
      wrap-around of [++] written out ([Go.wrap]).
    - An [error] is identified with the text its [Error()] method returns;
      a possibly-nil error is an [option].
    - A function that may panic returns an [outcome] together with the
      state reached when it returned or panicked.
    - A mutex has no effect in a sequential run and is left out; calls to
      loggers, to [fmt.Println] and to the external collaborators are
      recorded, in order, in a [trace]. *)

From stdpp Require Import base strings list gmap.
From Stdlib Require Import ZArith Lia.

(** ** Go basics *)

Module Go.

Definition MaxInt : Z := 9223372036854775807.
Definition MinInt : Z := -9223372036854775808.

(** Signed 64-bit wrap-around, the result of integer overflow in Go. *)
Definition wrap (z : Z) : Z := ((z + 2 ^ 63) `mod` 2 ^ 64 - 2 ^ 63)%Z.

Definition error : Type := string.

Inductive outcome (A : Type) : Type :=
  | Done (a : A)
  | Panicked (v : string).
Global Arguments Done {A} a.
Global Arguments Panicked {A} v.

(** [time.Duration] counts nanoseconds. *)
Definition Second : Z := 1000000000.

(** State of a channel of the heap: closed or not. A channel variable is
    an [option nat]: [None] is the nil channel, [Some c] the channel
    allocated [c]-th by [make]. *)
Definition chan : Type := option nat.

Definition nil_close_msg : string := "close of nil channel".
Definition closed_close_msg : string := "close of closed channel".
Definition nil_deref_msg : string :=
  "runtime error: invalid memory address or nil pointer dereference".

(** [close(c)] on a heap of channels: closing the nil channel panics, and
    so does closing a closed channel. Channels only come from [make], so
    a reference always lies within the heap; the last case does not
    arise. *)
Definition close (c : chan) (chans : list bool) : outcome (list bool) :=
  match c with
  | None => Panicked nil_close_msg
  | Some i =>
      match chans !! i with
      | Some false => Done (<[i := true]> chans)
      | Some true => Panicked closed_close_msg
      | None => Panicked nil_close_msg
      end
  end.

End Go.
Export Go.

(** ** Observable calls *)

Inductive logLevel : Type := LDebug | LInfo | LError.

Inductive logArg : Type :=
  | AStr (s : string)
  | AInt (z : Z)
  | AErr (e : error)
  | APluginString (id : Z).   (* the text of [ap.String()] for instance [id] *)

Inductive event : Type :=
  | ELog (lvl : logLevel) (tag fmt : string) (args : list logArg)
  | EPrintln (e : error)
  | ERegisterHandler (delegate : nat) (name : string)
  | EUnregisterHandler (delegate : nat) (name : string)
  | ENewTicker (d : Z)
  | ENewExecutablePlugin (args : list string) (path : string)
  | EStart
  | EWaitForResponse (d : Z)
  | EPing
  | EGoCheckHealth (id : Z).

(** The part of the Go runtime the code acts on: the channels made so
    far, the goroutines spawned so far and the calls observed so far
    (oldest first). *)
Inductive gstatus : Type :=
  | GSelect                (* at the top of the loop, about to enter [select] *)
  | GWait (q : chan)       (* blocked in [select] on its ticker and on [q] *)
  | GExited.               (* returned, its ticker stopped *)

Record env : Type := mkEnv {
  chans : list bool;
  goroutines : list gstatus;
  trace : list event
}.

Definition emit (ev : event) (e : env) : env :=
  mkEnv (chans e) (goroutines e) (trace e ++ [ev]).

Definition emits (evs : list event) (e : env) : env :=
  mkEnv (chans e) (goroutines e) (trace e ++ evs).

Definition env0 : env := mkEnv [] [] [].

(** ** idCounter *)

Module idCounter.

Record t : Type := mk { id : Z }.

(** [&idCounter{mutex: &sync.Mutex{}}]: the counter starts at zero. *)
Definition new : t := mk 0.

(** [func (i *idCounter) Next() int] *)
Definition Next (i : t) : Z * t :=
  let i' := mk (wrap (id i + 1)) in
  (id i', i').

(** The values returned by [n] successive calls, oldest first. *)
Fixpoint calls (n : nat) (i : t) : list Z * t :=
  match n with
  | O => ([], i)
  | S n' =>
      let '(v, i1) := Next i in
      let '(vs, i2) := calls n' i1 in
      (v :: vs, i2)
  end.

End idCounter.

(** ** Package [plugin]: the handshake response and the process transport *)

Module plugin.

(** Modelled from the spec: the category of a plugin, one of "collector,
    processor, publisher"; its declaration is not among the sources. *)
Inductive PluginType : Type :=
  | CollectorPluginType
  | ProcessorPluginType
  | PublisherPluginType.

(** Modelled from the spec: the "status code" of a handshake response,
    success or not; its declaration is not among the sources. *)
Inductive PluginResponseState : Type :=
  | PluginSuccess
  | PluginFailure.

Global Instance PluginResponseState_eq_dec : EqDecision PluginResponseState.
Proof. solve_decision. Defined.

(** Modelled from the spec: the plugin client, "ping() -> error", whose
    declaration is not among the sources. [Ping] is what the one liveness
    probe of the start sequence answers. *)
Record PluginClient : Type := mkClient {
  Ping : option error
}.

(** Modelled from the spec: [plugin.Response], whose declaration is not
    among the sources. "Response carries a status code and, on failure, a
    message"; the start sequence "wrap[s] the handshake's client handle"
    and the instance built from it has "the PluginKey it instantiates",
    filed in one of the three category tables. *)
Record Response : Type := mkResponse {
  Type_ : PluginType;
  Key : string;
  Client : PluginClient;
  State : PluginResponseState;
  ErrorMessage : string
}.

(** [type executablePlugin interface], declared in runner.go. A handle is
    given by what its methods answer; [WaitForResponse] returns the pair of the
    source, a response pointer and an error, either of which may be
    nil. *)
Record executablePlugin : Type := mkExecutable {
  Start : option error;
  Kill : option error;
  WaitForResponse : Z -> option Response * option error
}.

End plugin.

(** ** availablePlugin and the registry *)

Module availablePlugin.

(** [PluginRunning availablePluginState = iota - 1] stands in the second
    line of its const block, so the three states are 0, 1 and 2. *)
Inductive availablePluginState : Type :=
  | PluginRunning
  | PluginStopped
  | PluginDisabled.

Definition state_value (s : availablePluginState) : Z :=
  match s with
  | PluginRunning => 0
  | PluginStopped => 1
  | PluginDisabled => 2
  end.

Global Instance availablePluginState_eq_dec : EqDecision availablePluginState.
Proof. solve_decision. Defined.

(** Modelled from the spec: the struct [availablePlugin], declared in a
    file that is not among the sources. "ID: integer ... State: one of
    Running, Stopped, Disabled ... Key: the PluginKey it instantiates ...
    Client: opaque communication handle"; the category selects the table
    of the registry. *)
Record t : Type := mk {
  ID : Z;
  State : availablePluginState;
  Type_ : plugin.PluginType;
  Key : string;
  Client : plugin.PluginClient
}.

End availablePlugin.

Module availablePlugins.

(** Modelled from the spec: [availablePluginPool], "the set of
    AvailablePlugin entries sharing one PluginKey", with the operation
    count. *)
Definition pool : Type := list availablePlugin.t.

(** Modelled from the spec: the operation "count" of a pool, a Go
    [int]. *)
Definition Count (p : pool) : Z := Z.of_nat (length p).

(** Modelled from the spec: the registry [availablePlugins], not among the
    sources: it "owns all pools, split into three category tables
    (collectors, processors, publishers)". *)
Record t : Type := mk {
  Collectors : gmap string (list availablePlugin.t);
  Processors : gmap string (list availablePlugin.t);
  Publishers : gmap string (list availablePlugin.t)
}.

(** Modelled from the spec: [newAvailablePlugins()], the registry with
    no pool, "created once at Runner construction". *)
Definition new : t := mk ∅ ∅ ∅.

(** Modelled from the spec: "GetPluginPool(key) -> Pool|nil: lookup by
    category+key; absence is not an error". *)
Definition GetPluginPool (tbl : gmap string (list availablePlugin.t))
    (key : string) : option pool :=
  tbl !! key.

(** Modelled from the spec: insertion into the pool of the key of the
    instance, made if it is absent. *)
Definition insert_pool (ap : availablePlugin.t)
    (tbl : gmap string (list availablePlugin.t))
    : gmap string (list availablePlugin.t) :=
  <[availablePlugin.Key ap := default [] (tbl !! availablePlugin.Key ap) ++ [ap]]> tbl.

(** Modelled from the spec: "Insert(plugin)", where "every
    AvailablePlugin appears in exactly one pool, the one matching its
    Key". *)
Definition Insert (ap : availablePlugin.t) (a : t) : t :=
  match availablePlugin.Type_ ap with
  | plugin.CollectorPluginType =>
      mk (insert_pool ap (Collectors a)) (Processors a) (Publishers a)
  | plugin.ProcessorPluginType =>
      mk (Collectors a) (insert_pool ap (Processors a)) (Publishers a)
  | plugin.PublisherPluginType =>
      mk (Collectors a) (Processors a) (insert_pool ap (Publishers a))
  end.

(** Modelled from the spec: the entries of all the pools of a table. *)
Definition flatten (tbl : gmap string (list availablePlugin.t))
    : list availablePlugin.t :=
  concat (snd <$> map_to_list tbl).

(** Modelled from the spec: "Table() -> sequence of AvailablePlugin: a
    snapshot-style enumeration across all categories". *)
Definition Table (a : t) : list availablePlugin.t :=
  flatten (Collectors a) ++ flatten (Processors a) ++ flatten (Publishers a).

End availablePlugins.

(** ** monitor *)

Module monitor.

(** [MonitorStopped monitorState = iota - 1] opens its const block: the
    two states are -1 and 0. *)
Inductive monitorState : Type :=
  | MonitorStopped
  | MonitorStarted.

Definition state_value (s : monitorState) : Z :=
  match s with
  | MonitorStopped => -1
  | MonitorStarted => 0
  end.

Definition DefaultMonitorDuration : Z := Second * 60.

Record t : Type := mk {
  State : monitorState;
  quit : chan
}.

(** [func newMonitor() *monitor]: [new(monitor)] leaves [quit] nil. *)
Definition newMonitor : t := mk MonitorStopped None.

(** The body of the [ticker.C] case: one health check goroutine per
    running entry of the table. *)
Definition sweep (aps : availablePlugins.t) : list event :=
  (fun ap => EGoCheckHealth (availablePlugin.ID ap)) <$>
  filter (fun ap => availablePlugin.State ap = availablePlugin.PluginRunning)
         (availablePlugins.Table aps).

(** [func (m *monitor) Start(availablePlugins *availablePlugins)] *)
Definition Start (aps : availablePlugins.t) (m : t) (e : env) : t * env :=
  let e1 := emit (ENewTicker DefaultMonitorDuration) e in
  let c := length (chans e1) in
  let e2 := mkEnv (chans e1 ++ [false]) (goroutines e1 ++ [GSelect]) (trace e1) in
  (mk MonitorStarted (Some c), e2).

(** [func (m *monitor) Stop()] *)
Definition Stop (m : t) (e : env) : outcome unit * (t * env) :=
  match close (quit m) (chans e) with
  | Panicked v => (Panicked v, (m, e))
  | Done chans' =>
      (Done (), (mk MonitorStopped (quit m), mkEnv chans' (goroutines e) (trace e)))
  end.

(** One step of one of the goroutines spawned by [Start], against the
    registry [aps] it was handed. A [select] evaluates its channel
    operand [m.quit] on entry; the ticker may fire at any time; the
    receive from [quit] succeeds once that channel is closed, never on a
    nil channel. *)
Inductive step (aps : availablePlugins.t) : t * env -> t * env -> Prop :=
  | step_enter m e i :
      goroutines e !! i = Some GSelect ->
      step aps (m, e)
        (m, mkEnv (chans e) (<[i := GWait (quit m)]> (goroutines e)) (trace e))
  | step_tick m e i q :
      goroutines e !! i = Some (GWait q) ->
      step aps (m, e)
        (m, mkEnv (chans e) (<[i := GSelect]> (goroutines e))
                  (trace e ++ sweep aps))
  | step_quit m e i c :
      goroutines e !! i = Some (GWait (Some c)) ->
      chans e !! c = Some true ->
      step aps (m, e)
        (mk MonitorStopped (quit m),
         mkEnv (chans e) (<[i := GExited]> (goroutines e)) (trace e)).

(** Any number of background steps. *)
Inductive steps (aps : availablePlugins.t) : t * env -> t * env -> Prop :=
  | steps_refl s : steps aps s s
  | steps_step s1 s2 s3 : step aps s1 s2 -> steps aps s2 s3 -> steps aps s1 s3.

(** The calls a client of the monitor makes. *)
Inductive op : Type := OpStart | OpStop.

Definition call (aps : availablePlugins.t) (o : op) (s : t * env)
    : outcome unit * (t * env) :=
  match o with
  | OpStart => (Done (), Start aps (fst s) (snd s))
  | OpStop => Stop (fst s) (snd s)
  end.

(** [run aps ops s r s']: the client makes the calls [ops] one after the
    other from [s], the spawned goroutines taking any number of steps
    before, between and after them; the run ends in [s'] with [r], and it
    ends at the first call that panics. *)
Inductive run (aps : availablePlugins.t)
    : list op -> t * env -> outcome unit -> t * env -> Prop :=
  | run_nil s s' : steps aps s s' -> run aps [] s (Done ()) s'
  | run_panic o ops s s1 s2 v :
      steps aps s s1 -> call aps o s1 = (Panicked v, s2) ->
      run aps (o :: ops) s (Panicked v) s2
  | run_cons o ops s s1 s2 r s' :
      steps aps s s1 -> call aps o s1 = (Done (), s2) ->
      run aps ops s2 r s' ->
      run aps (o :: ops) s r s'.

(** The calls [ops] made back to back, no goroutine being scheduled in
    between. *)
Fixpoint exec (aps : availablePlugins.t) (ops : list op) (s : t * env)
    : outcome unit * (t * env) :=
  match ops with
  | [] => (Done (), s)
  | o :: ops' =>
      match call aps o s with
      | (Done _, s') => exec aps ops' s'
      | (Panicked v, s') => (Panicked v, s')
      end
  end.

End monitor.

(** ** The event bus and the demand events *)

Module gomit.

(** [gomit.Delegator], given by what its methods answer for a handler
    name. *)
Record Delegator : Type := mkDelegator {
  RegisterHandler : string -> option error;
  UnregisterHandler : string -> option error
}.

(** [gomit.Emitter]: nil or a reference. *)
Definition Emitter : Type := option nat.

End gomit.

Module control_event.

(** Modelled from the spec: the body of a [gomit.Event], as the type
    switch of the handler sees it. The "publisher demand event (carries a
    plugin name + version)" and the "metric subscription event (carries
    a metric namespace path + version)" are declared in a package that
    is not among the sources. *)
Inductive Body : Type :=
  | PublisherSubscriptionEvent (PluginName : string) (PluginVersion : Z)
  | MetricSubscriptionEvent (MetricNamespace : list string) (Version : Z)
  | OtherEvent.

End control_event.

(** ** runner *)

Module runner.

Definition HandlerRegistrationName : string := "control.runner".

(** "Until more advanced decisioning on starting exists this is the max
    number to spawn." *)
Definition MaximumRunningPlugins : Z := 3.

(** Modelled from the spec: a loaded plugin, "exposing name, version,
    category, filesystem path"; [Key] is what its method [Key()]
    answers. *)
Record loadedPlugin : Type := mkLoaded {
  Name : string;
  Version : Z;
  TypeName : string;
  Key : string;
  Path : string
}.

(** Modelled from the spec: the loaded-plugin registry is an "iterable
    sequence of loaded plugins", walked by the [Next()]/[Item()] loop of
    the handler from its first element to its last, and builds the
    process-launch arguments. The position of the walk is not part of
    the record: a handling is taken with the walk at rest, before the
    first element. *)
Record managesPlugins : Type := mkManager {
  LoadedPlugins : list loadedPlugin;
  GenerateArgs : string -> list string
}.

(** Modelled from the spec: what the metric catalog resolves to, the
    "loaded plugin descriptor" that serves the metric. *)
Record metricType : Type := mkMetric {
  Plugin : loadedPlugin
}.

(** Modelled from the spec: the metric catalog "resolves (namespace path,
    version) -> loaded plugin descriptor; fails with a not-found
    condition". *)
Record catalogsMetrics : Type := mkCatalog {
  Get : list string -> Z -> metricType + error
}.

Record t : Type := mk {
  delegates : list gomit.Delegator;
  emitter : gomit.Emitter;
  monitor : monitor.t;
  availablePlugins : availablePlugins.t;
  metricCatalog : option catalogsMetrics;
  pluginManager : option managesPlugins;
  apIdCounter : idCounter.t
}.

Definition set_monitor (m : monitor.t) (r : t) : t :=
  mk (delegates r) (emitter r) m (availablePlugins r) (metricCatalog r)
     (pluginManager r) (apIdCounter r).

Definition set_availablePlugins (a : availablePlugins.t) (r : t) : t :=
  mk (delegates r) (emitter r) (monitor r) a (metricCatalog r)
     (pluginManager r) (apIdCounter r).

Definition set_apIdCounter (c : idCounter.t) (r : t) : t :=
  mk (delegates r) (emitter r) (monitor r) (availablePlugins r)
     (metricCatalog r) (pluginManager r) c.

(** [func newRunner() *runner] *)
Definition newRunner : t :=
  mk [] None monitor.newMonitor availablePlugins.new None None idCounter.new.

Definition SetMetricCatalog (c : catalogsMetrics) (r : t) : t :=
  mk (delegates r) (emitter r) (monitor r) (availablePlugins r) (Some c)
     (pluginManager r) (apIdCounter r).

Definition SetEmitter (em : nat) (r : t) : t :=
  mk (delegates r) (Some em) (monitor r) (availablePlugins r)
     (metricCatalog r) (pluginManager r) (apIdCounter r).

Definition SetPluginManager (m : managesPlugins) (r : t) : t :=
  mk (delegates r) (emitter r) (monitor r) (availablePlugins r)
     (metricCatalog r) (Some m) (apIdCounter r).

(** [func (r *runner) AddDelegates(delegates ...gomit.Delegator)] *)
Definition AddDelegates (ds : list gomit.Delegator) (r : t) : t :=
  mk (delegates r ++ ds) (emitter r) (monitor r) (availablePlugins r)
     (metricCatalog r) (pluginManager r) (apIdCounter r).

(** The loop of [Start] over [r.delegates], from delegate number [i]
    on: it returns at the first registration that fails. *)
Fixpoint registerAll (i : nat) (ds : list gomit.Delegator) (e : env)
    : option error * env :=
  match ds with
  | [] => (None, e)
  | del :: ds' =>
      let e1 := emit (ERegisterHandler i HandlerRegistrationName) e in
      match gomit.RegisterHandler del HandlerRegistrationName with
      | Some err => (Some err, e1)
      | None => registerAll (S i) ds' e1
      end
  end.

Definition no_delegates_msg : string :=
  "No delegates added before called Start()".

(** [func (r *runner) Start() error] *)
Definition Start (s : t * env) : option error * (t * env) :=
  let '(r, e) := s in
  if bool_decide (length (delegates r) = 0%nat) then
    (Some no_delegates_msg, s)
  else
    match registerAll 0 (delegates r) e with
    | (Some err, e1) => (Some err, (r, e1))
    | (None, e1) =>
        let '(m, e2) := monitor.Start (availablePlugins r) (monitor r) e1 in
        (None, (set_monitor m r, emit (ELog LDebug "runner.start" "started" []) e2))
    end.

(** The loop of [Stop] over [r.delegates]: every error is appended to
    [errs], and the loop goes on. *)
Fixpoint unregisterAll (i : nat) (ds : list gomit.Delegator)
    (errs : list error) (e : env) : list error * env :=
  match ds with
  | [] => (errs, e)
  | del :: ds' =>
      let e1 := emit (EUnregisterHandler i HandlerRegistrationName) e in
      match gomit.UnregisterHandler del HandlerRegistrationName with
      | Some err => unregisterAll (S i) ds' (errs ++ [err]) e1
      | None => unregisterAll (S i) ds' errs e1
      end
  end.

(** [func (r *runner) Stop() []error]; the deferred log runs when the
    function returns. *)
Definition Stop (s : t * env) : outcome (list error) * (t * env) :=
  let '(r, e) := s in
  match monitor.Stop (monitor r) e with
  | (Panicked v, _) => (Panicked v, s)
  | (Done _, (m, e1)) =>
      let '(errs, e2) := unregisterAll 0 (delegates r) [] e1 in
      (Done errs,
       (set_monitor m r, emit (ELog LDebug "runner.stop" "stopped" []) e2))
  end.

(** [func checkPool(pool *availablePluginPool, key string) bool], with the
    log entry it writes. *)
Definition checkPool (pool : option availablePlugins.pool) (key : string)
    : bool * list event :=
  if match pool with
     | Some p => (MaximumRunningPlugins <=? availablePlugins.Count p)%Z
     | None => false
     end
  then
    (false,
     [ELog LDebug "runner.events"
        "(%s) has %d available plugin running (need %d)"
        [AStr key; AInt (availablePlugins.Count (default [] pool));
         AInt MaximumRunningPlugins]])
  else
    match pool with
    | None =>
        (true,
         [ELog LDebug "runner.events"
            "not enough available plugins (%d) running for (%s) need %d"
            [AInt 0; AStr key; AInt MaximumRunningPlugins]])
    | Some p =>
        (true,
         [ELog LDebug "runner.events"
            "not enough available plugins (%d) running for (%s) need %d"
            [AInt (availablePlugins.Count p); AStr key;
             AInt MaximumRunningPlugins]])
    end.

Definition start_error_prefix : string := "error while starting plugin: ".
Definition wait_error_prefix : string := "error while waiting for response: ".
Definition no_response_msg : string := "no reponse object returned from plugin".
Definition not_started_prefix : string := "plugin could not start error: ".

(** The handshake timeout [time.Second * 3]. *)
Definition handshake_timeout : Z := Second * 3.

(** [strings.Join] *)
Fixpoint Join (l : list string) (sep : string) : string :=
  match l with
  | [] => ""
  | [x] => x
  | x :: l' => x +:+ sep +:+ Join l' sep
  end.

(** How control leaves the body of the loop over the loaded plugins. *)
Inductive flow : Type :=
  | Continue
  | Returned
  | Panics (v : string).

Section Collaborators.

(** [newAvailablePlugin(resp, id, emitter)] and
    [plugin.NewExecutablePlugin(args, path)] are functions of files that
    are not among the sources; the code is modelled for any behaviour of
    theirs. [NewExecutablePlugin] returns the pair of the source: a
    handle and a possibly-nil error. *)
Variable newAvailablePlugin :
  plugin.Response -> Z -> gomit.Emitter -> availablePlugin.t + error.
Variable NewExecutablePlugin :
  list string -> string -> plugin.executablePlugin * option error.

(** [func (r *runner) startPlugin(p executablePlugin)], which returns an
    instance pointer and an error: [inl ap] is the result [(ap, nil)] and
    [inr e] the result [(nil, e)]. *)
Definition startPlugin (p : plugin.executablePlugin) (s : t * env)
    : (availablePlugin.t + error) * (t * env) :=
  let '(r, e) := s in
  let e := emit EStart e in
  match plugin.Start p with
  | Some err =>
      let e_ := start_error_prefix +:+ err in
      (inr e_, (r, emit (ELog LError "runner.startplugin" e_ []) e))
  | None =>
      let e := emit (EWaitForResponse handshake_timeout) e in
      match plugin.WaitForResponse p handshake_timeout with
      | (_, Some err) => (inr (wait_error_prefix +:+ err), (r, e))
      | (None, None) => (inr no_response_msg, (r, e))
      | (Some resp, None) =>
          if bool_decide (plugin.State resp ≠ plugin.PluginSuccess) then
            (inr (not_started_prefix +:+ plugin.ErrorMessage resp), (r, e))
          else
            let '(id, ctr) := idCounter.Next (apIdCounter r) in
            let r := set_apIdCounter ctr r in
            match newAvailablePlugin resp id (emitter r) with
            | inr err => (inr err, (r, e))
            | inl ap =>
                let e := emit EPing e in
                match plugin.Ping (availablePlugin.Client ap) with
                | Some err => (inr err, (r, e))
                | None =>
                    let r :=
                      set_availablePlugins
                        (availablePlugins.Insert ap (availablePlugins r)) r in
                    let e :=
                      emit (ELog LInfo "runner.events"
                              "available plugin started (%s)"
                              [APluginString (availablePlugin.ID ap)]) e in
                    (inl ap, (r, e))
                end
            end
      end
  end.

(** The six ways the start sequence can fail on the handle [p], for a
    runner [r]: the process does not start; the handshake fails in the
    transport or times out; there is no response object; the response
    does not report success; the instance cannot be built; the ping
    fails. *)
Inductive startFailure (p : plugin.executablePlugin) (r : t) : Prop :=
  | fail_process (err : error) :
      plugin.Start p = Some err -> startFailure p r
  | fail_handshake (resp : option plugin.Response) (err : error) :
      plugin.Start p = None ->
      plugin.WaitForResponse p handshake_timeout = (resp, Some err) ->
      startFailure p r
  | fail_no_response :
      plugin.Start p = None ->
      plugin.WaitForResponse p handshake_timeout = (None, None) ->
      startFailure p r
  | fail_status (resp : plugin.Response) :
      plugin.Start p = None ->
      plugin.WaitForResponse p handshake_timeout = (Some resp, None) ->
      plugin.State resp <> plugin.PluginSuccess ->
      startFailure p r
  | fail_construction (resp : plugin.Response) (err : error) :
      plugin.Start p = None ->
      plugin.WaitForResponse p handshake_timeout = (Some resp, None) ->
      plugin.State resp = plugin.PluginSuccess ->
      newAvailablePlugin resp (fst (idCounter.Next (apIdCounter r))) (emitter r)
        = inr err ->
      startFailure p r
  | fail_ping (resp : plugin.Response) (ap : availablePlugin.t) (err : error) :
      plugin.Start p = None ->
      plugin.WaitForResponse p handshake_timeout = (Some resp, None) ->
      plugin.State resp = plugin.PluginSuccess ->
      newAvailablePlugin resp (fst (idCounter.Next (apIdCounter r))) (emitter r)
        = inl ap ->
      plugin.Ping (availablePlugin.Client ap) = Some err ->
      startFailure p r.

(** The body of the loop of the publisher branch, for the loaded plugin
    [lp]. *)
Definition publisherBody (pm : managesPlugins) (PluginName : string)
    (PluginVersion : Z) (lp : loadedPlugin) (s : t * env) : flow * (t * env) :=
  let '(r, e) := s in
  let e :=
    emits
      [ELog LDebug "runner.events"
         "subscription request name: %v version: %v"
         [AStr PluginName; AInt PluginVersion];
       ELog LDebug "runner.events"
         "loaded plugin name: %v version: %v type: %v"
         [AStr (Name lp); AInt (Version lp); AStr (TypeName lp)]] e in
  if bool_decide (TypeName lp = "publisher" ∧ Name lp = PluginName
                  ∧ Version lp = PluginVersion) then
    let pool :=
      availablePlugins.GetPluginPool
        (availablePlugins.Publishers (availablePlugins r)) (Key lp) in
    let '(ok, logs) := checkPool pool (Key lp) in
    let e := emits logs e in
    if negb ok then (Returned, (r, e))
    else
      let args := GenerateArgs pm (Path lp) in
      let e := emit (ENewExecutablePlugin args (Path lp)) e in
      let '(ePlugin, err) := NewExecutablePlugin args (Path lp) in
      let '(res, s') := startPlugin ePlugin (r, e) in
      match res with
      | inr err => (Panics err, (fst s', emit (EPrintln err) (snd s')))
      | inl _ => (Continue, s')
      end
  else (Continue, (r, e)).

Fixpoint publisherLoop (pm : managesPlugins) (PluginName : string)
    (PluginVersion : Z) (lps : list loadedPlugin) (s : t * env)
    : outcome unit * (t * env) :=
  match lps with
  | [] => (Done (), s)
  | lp :: rest =>
      match publisherBody pm PluginName PluginVersion lp s with
      | (Continue, s') => publisherLoop pm PluginName PluginVersion rest s'
      | (Returned, s') => (Done (), s')
      | (Panics v, s') => (Panicked v, s')
      end
  end.

(** [func (r *runner) HandleGomitEvent(e gomit.Event)] *)
Definition HandleGomitEvent (body : control_event.Body) (s : t * env)
    : outcome unit * (t * env) :=
  let '(r, e) := s in
  match body with
  | control_event.PublisherSubscriptionEvent PluginName PluginVersion =>
      let e :=
        emit (ELog LDebug "runner.events"
                "handling publisher subscription event (%v:v%v)"
                [AStr PluginName; AInt PluginVersion]) e in
      match pluginManager r with
      | None => (Panicked nil_deref_msg, (r, e))
      | Some pm =>
          publisherLoop pm PluginName PluginVersion (LoadedPlugins pm) (r, e)
      end
  | control_event.MetricSubscriptionEvent MetricNamespace Version_ =>
      let e :=
        emit (ELog LDebug "runner.events"
                "handling metric subscription event (%s v%d)"
                [AStr (Join MetricNamespace "/"); AInt Version_]) e in
      match metricCatalog r with
      | None => (Panicked nil_deref_msg, (r, e))
      | Some mc =>
          match Get mc MetricNamespace Version_ with
          | inr err => (Done (), (r, emit (EPrintln err) e))
          | inl mt =>
              let e :=
                emit (ELog LDebug "runner.events"
                        "plugin is (%s) for (%s v%d)"
                        [AStr (Key (Plugin mt));
                         AStr (Join MetricNamespace "/"); AInt Version_]) e in
              let pool :=
                availablePlugins.GetPluginPool
                  (availablePlugins.Collectors (availablePlugins r))
                  (Key (Plugin mt)) in
              let '(ok, logs) := checkPool pool (Key (Plugin mt)) in
              let e := emits logs e in
              if negb ok then (Done (), (r, e))
              else
                match pluginManager r with
                | None => (Panicked nil_deref_msg, (r, e))
                | Some pm =>
                    let args := GenerateArgs pm (Path (Plugin mt)) in
                    let e :=
                      emit (ENewExecutablePlugin args (Path (Plugin mt))) e in
                    let '(ePlugin, err) :=
                      NewExecutablePlugin args (Path (Plugin mt)) in
                    let e :=
                      match err with
                      | Some err =>
                          emits
                            [ELog LDebug "runner:HandleGomitEvent"
                               "Plugin %v (ver %v) error: %v"
                               [AStr (Name (Plugin mt));
                                AInt (Version (Plugin mt)); AErr err];
                             EPrintln err] e
                      | None => e
                      end in
                    let '(res, s') := startPlugin ePlugin (r, e) in
                    match res with
                    | inr err =>
                        (Panicked err,
                         (fst s',
                          emit (ELog LDebug "runner:HandleGomitEvent"
                                  "Plugin %v (ver %v) start error: %v"
                                  [AStr (Name (Plugin mt));
                                   AInt (Version (Plugin mt)); AErr err])
                               (snd s')))
                    | inl _ => (Done (), s')
                    end
                end
          end
      end
  | control_event.OtherEvent => (Done (), s)
  end.

End Collaborators.

(** *** Vocabulary of the statements *)

(** The calls to [RegisterHandler], and to [UnregisterHandler], on the
    delegates number [i] to [i + n - 1], in order. *)
Definition registrations (i n : nat) : list event :=
  (fun j => ERegisterHandler j HandlerRegistrationName) <$> seq i n.

Definition unregistrations (i n : nat) : list event :=
  (fun j => EUnregisterHandler j HandlerRegistrationName) <$> seq i n.

(** The delegate accepts the registration of the runner. *)
Definition registers (d : gomit.Delegator) : Prop :=
  gomit.RegisterHandler d HandlerRegistrationName = None.

(** The errors of all the delegates that refuse to unregister, in
    order. *)
Definition unregister_errors (ds : list gomit.Delegator) : list error :=
  omap (fun d => gomit.UnregisterHandler d HandlerRegistrationName) ds.

(** The event is not a wait for a handshake. *)
Definition not_a_wait (ev : event) : Prop :=
  forall d, ev <> EWaitForResponse d.

(** The event is a log entry. *)
Definition is_log (ev : event) : Prop :=
  exists lvl tag fmt args, ev = ELog lvl tag fmt args.

(** The loaded plugin is the one a publisher demand event for
    [PluginName] and [PluginVersion] asks for. *)
Definition matches (PluginName : string) (PluginVersion : Z)
    (lp : loadedPlugin) : Prop :=
  TypeName lp = "publisher" /\ Name lp = PluginName
  /\ Version lp = PluginVersion.

Global Instance matches_dec (PluginName : string) (PluginVersion : Z)
    (lp : loadedPlugin) : Decision (matches PluginName PluginVersion lp).
Proof. unfold matches. apply _. Defined.

(** The answer of the admission check for the publisher pool of [lp] in
    the registry of [r]. *)
Definition granted (r : t) (lp : loadedPlugin) : bool :=
  fst (checkPool
         (availablePlugins.GetPluginPool
            (availablePlugins.Publishers (availablePlugins r)) (Key lp))
         (Key lp)).

(** The two log entries the loop writes for every loaded plugin. *)
Definition examined (PluginName : string) (PluginVersion : Z)
    (lp : loadedPlugin) : list event :=
  [ELog LDebug "runner.events"
     "subscription request name: %v version: %v"
     [AStr PluginName; AInt PluginVersion];
   ELog LDebug "runner.events"
     "loaded plugin name: %v version: %v type: %v"
     [AStr (Name lp); AInt (Version lp); AStr (TypeName lp)]].

(** The paths for which a spawnable handle was built, oldest first. *)
Definition spawn_path (ev : event) : option string :=
  match ev with
  | ENewExecutablePlugin _ path => Some path
  | _ => None
  end.

Definition spawns (tr : list event) : list string := omap spawn_path tr.

End runner.

(** ** The handler when the transport may return the nil handle *)

(** [plugin.NewExecutablePlugin] returns a pointer and an error, and the
    pointer may be nil. [runner.HandleGomitEvent] takes the handles by
    what their methods answer, which the nil handle cannot be given by: a
    method called on it dereferences it. The definitions below embed the
    same source lines for a transport whose handle is an [option], [None]
    being the nil pointer; on the transports that never return nil they
    are [runner.HandleGomitEvent] ([HandleGomitEvent_lift]). *)

Module nilable.

Import runner.

Section Collaborators.

Variable newAvailablePlugin :
  plugin.Response -> Z -> gomit.Emitter -> availablePlugin.t + error.
Variable NewExecutablePlugin :
  list string -> string -> option plugin.executablePlugin * option error.

(** [r.startPlugin(ePlugin)] for a handle that may be nil: the first
    statement of [startPlugin], [p.Start()], is a method call on the
    handle, which on the nil handle panics with a nil dereference; on any
    other handle the call returns what [runner.startPlugin] returns. *)
Definition startPlugin (p : option plugin.executablePlugin) (s : t * env)
    : outcome (availablePlugin.t + error) * (t * env) :=
  match p with
  | None => (Panicked nil_deref_msg, s)
  | Some h =>
      let '(res, s') := runner.startPlugin newAvailablePlugin h s in
      (Done res, s')
  end.

(** The body of the loop of the publisher branch, for the loaded plugin
    [lp]. *)
Definition publisherBody (pm : managesPlugins) (PluginName : string)
    (PluginVersion : Z) (lp : loadedPlugin) (s : t * env) : flow * (t * env) :=
  let '(r, e) := s in
  let e :=
    emits
      [ELog LDebug "runner.events"
         "subscription request name: %v version: %v"
         [AStr PluginName; AInt PluginVersion];
       ELog LDebug "runner.events"
         "loaded plugin name: %v version: %v type: %v"
         [AStr (Name lp); AInt (Version lp); AStr (TypeName lp)]] e in
  if bool_decide (TypeName lp = "publisher" ∧ Name lp = PluginName
                  ∧ Version lp = PluginVersion) then
    let pool :=
      availablePlugins.GetPluginPool
        (availablePlugins.Publishers (availablePlugins r)) (Key lp) in
    let '(ok, logs) := checkPool pool (Key lp) in
    let e := emits logs e in
    if negb ok then (Returned, (r, e))
    else
      let args := GenerateArgs pm (Path lp) in
      let e := emit (ENewExecutablePlugin args (Path lp)) e in
      let '(ePlugin, err) := NewExecutablePlugin args (Path lp) in
      match startPlugin ePlugin (r, e) with
      | (Panicked v, s') => (Panics v, s')
      | (Done (inr err), s') =>
          (Panics err, (fst s', emit (EPrintln err) (snd s')))
      | (Done (inl _), s') => (Continue, s')
      end
  else (Continue, (r, e)).

Fixpoint publisherLoop (pm : managesPlugins) (PluginName : string)
    (PluginVersion : Z) (lps : list loadedPlugin) (s : t * env)
    : outcome unit * (t * env) :=
  match lps with
  | [] => (Done (), s)
  | lp :: rest =>
      match publisherBody pm PluginName PluginVersion lp s with
      | (Continue, s') => publisherLoop pm PluginName PluginVersion rest s'
      | (Returned, s') => (Done (), s')
      | (Panics v, s') => (Panicked v, s')
      end
  end.

(** [func (r *runner) HandleGomitEvent(e gomit.Event)] *)
Definition HandleGomitEvent (body : control_event.Body) (s : t * env)
    : outcome unit * (t * env) :=
  let '(r, e) := s in
  match body with
  | control_event.PublisherSubscriptionEvent PluginName PluginVersion =>
      let e :=
        emit (ELog LDebug "runner.events"
                "handling publisher subscription event (%v:v%v)"
                [AStr PluginName; AInt PluginVersion]) e in
      match pluginManager r with
      | None => (Panicked nil_deref_msg, (r, e))
      | Some pm =>
          publisherLoop pm PluginName PluginVersion (LoadedPlugins pm) (r, e)
      end
  | control_event.MetricSubscriptionEvent MetricNamespace Version_ =>
      let e :=
        emit (ELog LDebug "runner.events"
                "handling metric subscription event (%s v%d)"
                [AStr (Join MetricNamespace "/"); AInt Version_]) e in
      match metricCatalog r with
      | None => (Panicked nil_deref_msg, (r, e))
      | Some mc =>
          match Get mc MetricNamespace Version_ with
          | inr err => (Done (), (r, emit (EPrintln err) e))
          | inl mt =>
              let e :=
                emit (ELog LDebug "runner.events"
                        "plugin is (%s) for (%s v%d)"
                        [AStr (Key (Plugin mt));
                         AStr (Join MetricNamespace "/"); AInt Version_]) e in
              let pool :=
                availablePlugins.GetPluginPool
                  (availablePlugins.Collectors (availablePlugins r))
                  (Key (Plugin mt)) in
              let '(ok, logs) := checkPool pool (Key (Plugin mt)) in
              let e := emits logs e in
              if negb ok then (Done (), (r, e))
              else
                match pluginManager r with
                | None => (Panicked nil_deref_msg, (r, e))
                | Some pm =>
                    let args := GenerateArgs pm (Path (Plugin mt)) in
                    let e :=
                      emit (ENewExecutablePlugin args (Path (Plugin mt))) e in
                    let '(ePlugin, err) :=
                      NewExecutablePlugin args (Path (Plugin mt)) in
                    let e :=
                      match err with
                      | Some err =>
                          emits
                            [ELog LDebug "runner:HandleGomitEvent"
                               "Plugin %v (ver %v) error: %v"
                               [AStr (Name (Plugin mt));
                                AInt (Version (Plugin mt)); AErr err];
                             EPrintln err] e
                      | None => e
                      end in
                    match startPlugin ePlugin (r, e) with
                    | (Panicked v, s') => (Panicked v, s')
                    | (Done (inr err), s') =>
                        (Panicked err,
                         (fst s',
                          emit (ELog LDebug "runner:HandleGomitEvent"
                                  "Plugin %v (ver %v) start error: %v"
                                  [AStr (Name (Plugin mt));
                                   AInt (Version (Plugin mt)); AErr err])
                               (snd s')))
                    | (Done (inl _), s') => (Done (), s')
                    end
                end
          end
      end
  | control_event.OtherEvent => (Done (), s)
  end.

End Collaborators.

(** A transport that never returns the nil handle, as one that may. *)
Definition lift
    (NewExecutablePlugin :
       list string -> string -> plugin.executablePlugin * option error)
    (args : list string) (path : string)
    : option plugin.executablePlugin * option error :=
  (Some (fst (NewExecutablePlugin args path)),
   snd (NewExecutablePlugin args path)).

(** The transport that builds the same handles and reports no error. *)
Definition drop_error
    (NewExecutablePlugin :
       list string -> string -> option plugin.executablePlugin * option error)
    (args : list string) (path : string)
    : option plugin.executablePlugin * option error :=
  (fst (NewExecutablePlugin args path), None).

End nilable.

(** ** Sample collaborators *)

Module Samples.

(** A delegate that accepts everything and one that refuses both to
    register and to unregister. *)
Definition accepting : gomit.Delegator :=
  gomit.mkDelegator (fun _ => None) (fun _ => None).

Definition refusing : gomit.Delegator :=
  gomit.mkDelegator (fun _ => Some "refused") (fun _ => Some "busy").

Definition three_delegates : runner.t :=
  runner.AddDelegates [accepting; refusing; accepting] runner.newRunner.

(** A runner with delegates that register and whose second delegate will
    not unregister, after its [Start]. *)
Definition sticky : gomit.Delegator :=
  gomit.mkDelegator (fun _ => None) (fun _ => Some "busy").

Definition started : runner.t * env :=
  snd (runner.Start
         (runner.AddDelegates [accepting; sticky; accepting] runner.newRunner,
          env0)).

(** Modelled from the spec: [newAvailablePlugin], not among the sources.
    "On a successful response, construct an AvailablePlugin: allocate an
    identity from the Identity Allocator, wrap the handshake's client
    handle, set State = Running." *)
Definition newAvailablePlugin (resp : plugin.Response) (id : Z)
    (em : gomit.Emitter) : availablePlugin.t + error :=
  inl (availablePlugin.mk id availablePlugin.PluginRunning
         (plugin.Type_ resp) (plugin.Key resp) (plugin.Client resp)).

(** The handshake response of a publisher of key [key] whose client
    answers the ping with [ping]. *)
Definition publisher_response (key : string) (ping : option error)
    : plugin.Response :=
  plugin.mkResponse plugin.PublisherPluginType key (plugin.mkClient ping)
    plugin.PluginSuccess "".

(** Handles: one whose process starts, shakes hands and answers the
    ping; one that fails the ping; one whose handshake times out; one
    whose process does not start. *)
Definition healthy (key : string) : plugin.executablePlugin :=
  plugin.mkExecutable None None
    (fun _ => (Some (publisher_response key None), None)).

Definition unreachable (key : string) : plugin.executablePlugin :=
  plugin.mkExecutable None None
    (fun _ => (Some (publisher_response key (Some "connection refused")), None)).

Definition timing_out : plugin.executablePlugin :=
  plugin.mkExecutable None None (fun _ => (None, Some "timeout")).

Definition broken : plugin.executablePlugin :=
  plugin.mkExecutable (Some "exec format error") None (fun _ => (None, None)).

(** Two copies of the publisher bar, version 2, loaded from two paths,
    and a registry whose publisher pool for it is full. *)
Definition bar_a : runner.loadedPlugin :=
  runner.mkLoaded "bar" 2 "publisher" "bar:2" "/opt/bar-a".

Definition bar_b : runner.loadedPlugin :=
  runner.mkLoaded "bar" 2 "publisher" "bar:2" "/opt/bar-b".

Definition manager : runner.managesPlugins :=
  runner.mkManager [bar_a; bar_b] (fun path => [path]).

Definition instance (id : Z) : availablePlugin.t :=
  availablePlugin.mk id availablePlugin.PluginRunning
    plugin.PublisherPluginType "bar:2" (plugin.mkClient None).

Definition full_registry : availablePlugins.t :=
  availablePlugins.Insert (instance 3)
    (availablePlugins.Insert (instance 2)
       (availablePlugins.Insert (instance 1) availablePlugins.new)).

Definition with_manager (a : availablePlugins.t) : runner.t :=
  runner.set_availablePlugins a
    (runner.SetPluginManager manager runner.newRunner).

(** Transports: one whose processes all time out in the handshake, and
    one that fails to build the handle and returns, with the error, a
    handle whose process does not start. *)
Definition all_time_out (args : list string) (path : string)
    : plugin.executablePlugin * option error :=
  (timing_out, None).

Definition not_found (args : list string) (path : string)
    : plugin.executablePlugin * option error :=
  (broken, Some "no such file or directory").

End Samples.

(** ** Vocabulary of the further properties *)

(** Every goroutine spawned so far has returned. *)
Definition all_exited (e : env) : Prop :=
  Forall (fun g => g = GExited) (goroutines e).

(** The event is the dispatch of a health check for an entry of the
    registry that is in the running state. *)
Definition checks_running (aps : availablePlugins.t) (ev : event) : Prop :=
  exists ap,
    ap ∈ availablePlugins.Table aps
    /\ availablePlugin.State ap = availablePlugin.PluginRunning
    /\ ev = EGoCheckHealth (availablePlugin.ID ap).

(** [n] rounds of [Start] followed by [Stop]. *)
Fixpoint rounds (n : nat) : list monitor.op :=
  match n with
  | O => []
  | S n' => monitor.OpStart :: monitor.OpStop :: rounds n'
  end.

(** The handshake of the handle [p] succeeds with the response [resp]:
    the process starts and answers, in time, that it is up. *)
Definition handshake_succeeds (p : plugin.executablePlugin)
    (resp : plugin.Response) : Prop :=
  plugin.Start p = None
  /\ plugin.WaitForResponse p runner.handshake_timeout = (Some resp, None)
  /\ plugin.State resp = plugin.PluginSuccess.

(** From [s] to [s'] the delegates, the emitter, the monitor and the
    metric catalog are left as they were, no channel is made and no
    goroutine spawned, and the trace only grows. *)
Definition handling_frame (s s' : runner.t * env) : Prop :=
  runner.delegates (fst s') = runner.delegates (fst s)
  /\ runner.emitter (fst s') = runner.emitter (fst s)
  /\ runner.monitor (fst s') = runner.monitor (fst s)
  /\ runner.metricCatalog (fst s') = runner.metricCatalog (fst s)
  /\ chans (snd s') = chans (snd s)
  /\ goroutines (snd s') = goroutines (snd s)
  /\ exists tr, trace (snd s') = trace (snd s) ++ tr.

(** No pool of the table holds more than the maximum. *)
Definition table_within_capacity
    (tbl : gmap string (list availablePlugin.t)) : Prop :=
  forall key p,
    tbl !! key = Some p ->
    (availablePlugins.Count p <= runner.MaximumRunningPlugins)%Z.

Definition within_capacity (a : availablePlugins.t) : Prop :=
  table_within_capacity (availablePlugins.Collectors a)
  /\ table_within_capacity (availablePlugins.Processors a)
  /\ table_within_capacity (availablePlugins.Publishers a).

(** The table of the registry in which instances of a category are
    filed. *)
Definition table_of (ty : plugin.PluginType) (a : availablePlugins.t)
    : gmap string (list availablePlugin.t) :=
  match ty with
  | plugin.CollectorPluginType => availablePlugins.Collectors a
  | plugin.ProcessorPluginType => availablePlugins.Processors a
  | plugin.PublisherPluginType => availablePlugins.Publishers a
  end.

(** The answer of the admission check for the collector pool of [lp] in
    the registry of [r]. *)
Definition granted_collector (r : runner.t) (lp : runner.loadedPlugin) : bool :=
  fst (runner.checkPool
         (availablePlugins.GetPluginPool
            (availablePlugins.Collectors (runner.availablePlugins r))
            (runner.Key lp))
         (runner.Key lp)).

(** What the metric branch writes when a handle comes with an error: a
    debug log entry and a line on standard output. *)
Definition construction_report (lp : runner.loadedPlugin)
    (oerr : option error) : list event :=
  match oerr with
  | Some err =>
      [ELog LDebug "runner:HandleGomitEvent" "Plugin %v (ver %v) error: %v"
         [AStr (runner.Name lp); AInt (runner.Version lp); AErr err];
       EPrintln err]
  | None => []
  end.

(** The transport that builds the same handles and reports no error. *)
Definition drop_error
    (NewExecutablePlugin :
       list string -> string -> plugin.executablePlugin * option error)
    (args : list string) (path : string)
    : plugin.executablePlugin * option error :=
  (fst (NewExecutablePlugin args path), None).

(** The instances the transport brings up for the loaded publishers of
    [pm] are publishers filed under the key of the loaded plugin, and
    those it brings up for the plugins the catalog [mc] resolves to are
    collectors filed under the key of that plugin. *)
Definition publisher_instances_agree
    (newAvailablePlugin :
       plugin.Response -> Z -> gomit.Emitter -> availablePlugin.t + error)
    (NewExecutablePlugin :
       list string -> string -> plugin.executablePlugin * option error)
    (pm : runner.managesPlugins) : Prop :=
  forall lp resp id em ap,
    lp ∈ runner.LoadedPlugins pm ->
    runner.TypeName lp = "publisher" ->
    handshake_succeeds
      (fst (NewExecutablePlugin (runner.GenerateArgs pm (runner.Path lp))
              (runner.Path lp))) resp ->
    newAvailablePlugin resp id em = inl ap ->
    availablePlugin.Type_ ap = plugin.PublisherPluginType
    /\ availablePlugin.Key ap = runner.Key lp.

Definition collector_instances_agree
    (newAvailablePlugin :
       plugin.Response -> Z -> gomit.Emitter -> availablePlugin.t + error)
    (NewExecutablePlugin :
       list string -> string -> plugin.executablePlugin * option error)
    (pm : runner.managesPlugins) (mc : runner.catalogsMetrics) : Prop :=
  forall ns ver mt resp id em ap,
    runner.Get mc ns ver = inl mt ->
    handshake_succeeds
      (fst (NewExecutablePlugin
              (runner.GenerateArgs pm (runner.Path (runner.Plugin mt)))
              (runner.Path (runner.Plugin mt)))) resp ->
    newAvailablePlugin resp id em = inl ap ->
    availablePlugin.Type_ ap = plugin.CollectorPluginType
    /\ availablePlugin.Key ap = runner.Key (runner.Plugin mt).

(** *** More sample collaborators *)

Module MoreSamples.

(** The collector foo, version 1, a catalog that knows the one metric it
    serves, and a transport whose handles all start a healthy collector
    of that key. *)
Definition foo : runner.loadedPlugin :=
  runner.mkLoaded "foo" 1 "collector" "foo:1" "/opt/foo".

Definition catalog : runner.catalogsMetrics :=
  runner.mkCatalog
    (fun ns ver =>
       if decide (ns = ["intel"; "foo"] /\ ver = 1%Z)
       then inl (runner.mkMetric foo)
       else inr "metric not found").

Definition collector_response : plugin.Response :=
  plugin.mkResponse plugin.CollectorPluginType "foo:1" (plugin.mkClient None)
    plugin.PluginSuccess "".

Definition healthy_collector : plugin.executablePlugin :=
  plugin.mkExecutable None None (fun _ => (Some collector_response, None)).

Definition all_healthy (args : list string) (path : string)
    : plugin.executablePlugin * option error :=
  (healthy_collector, None).

Definition collecting (a : availablePlugins.t) : runner.t :=
  runner.SetMetricCatalog catalog (Samples.with_manager a).

(** A transport that starts a healthy collector of key foo:1 for the
    path of foo and a healthy publisher of key bar:2 for any other. *)
Definition by_path (args : list string) (path : string)
    : plugin.executablePlugin * option error :=
  if decide (path = "/opt/foo") then (healthy_collector, None)
  else (Samples.healthy "bar:2", None).

(** A transport that fails to build any handle: it returns the nil
    handle and an error. *)
Definition nowhere (args : list string) (path : string)
    : option plugin.executablePlugin * option error :=
  (None, Some "no such file or directory").

End MoreSamples.

(** * Properties *)

(** ** The identity allocator *)

Section IdCounter.

Local Open Scope Z_scope.

Lemma wrap_in_range (z : Z) : MinInt <= z <= MaxInt -> wrap z = z.
Proof.
  unfold wrap, MinInt, MaxInt. intros Hz.
  rewrite Z.mod_small; lia.
Qed.

Lemma wrap_add_l (a b : Z) : wrap (wrap a + b) = wrap (a + b).
Proof.
  unfold wrap. f_equal.
  replace ((a + 2 ^ 63) `mod` 2 ^ 64 - 2 ^ 63 + b + 2 ^ 63)
    with ((a + 2 ^ 63) `mod` 2 ^ 64 + b) by lia.
  replace (a + b + 2 ^ 63) with ((a + 2 ^ 63) + b) by lia.
  apply Zplus_mod_idemp_l.
Qed.

Lemma Next_value (i : idCounter.t) :
  idCounter.Next i
  = (wrap (idCounter.id i + 1), idCounter.mk (wrap (idCounter.id i + 1))).
Proof. reflexivity. Qed.

(** The [k]-th of [n] successive calls (counting from zero) returns the
    starting value plus [k + 1], wrapped. *)
Lemma calls_lookup (n : nat) : forall (i : idCounter.t) (k : nat),
  (k < n)%nat ->
  fst (idCounter.calls n i) !! k
  = Some (wrap (idCounter.id i + Z.of_nat k + 1)).
Proof.
  induction n as [|n IH]; intros i k Hk; [lia|].
  cbn [idCounter.calls]. rewrite Next_value.
  destruct (idCounter.calls n _) as [vs i2] eqn:HC.
  destruct k as [|k]; cbn [fst].
  - cbn. do 2 f_equal. lia.
  - change ((wrap (idCounter.id i + 1) :: vs) !! S k) with (vs !! k).
    specialize (IH (idCounter.mk (wrap (idCounter.id i + 1))) k ltac:(lia)).
    rewrite HC in IH. cbn [fst idCounter.id] in IH. rewrite IH.
    replace (wrap (idCounter.id i + 1) + Z.of_nat k + 1)
      with (wrap (idCounter.id i + 1) + (Z.of_nat k + 1)) by lia.
    rewrite wrap_add_l. do 2 f_equal. lia.
Qed.

Lemma calls_length (n : nat) : forall i : idCounter.t,
  length (fst (idCounter.calls n i)) = n.
Proof.
  induction n as [|n IH]; intros i; [reflexivity|].
  cbn [idCounter.calls]. rewrite Next_value.
  specialize (IH (idCounter.mk (wrap (idCounter.id i + 1)))).
  destruct (idCounter.calls n _) as [vs i2]. cbn in *. lia.
Qed.

(** C3, as the code has it: as long as the number [n] of calls does not
    exceed the largest [int], the calls on a fresh counter return the
    contiguous run 1..n, every call returns more than every earlier call,
    and the first call returns 1. *)
Theorem Next_run_in_range (n : nat) :
  Z.of_nat n <= MaxInt ->
  let vs := fst (idCounter.calls n idCounter.new) in
  vs = Z.of_nat <$> seq 1 n
  /\ (forall (j k : nat) (a b : Z),
        (j < k)%nat -> vs !! j = Some a -> vs !! k = Some b -> a < b)
  /\ ((0 < n)%nat -> vs !! 0%nat = Some 1).
Proof.
  intros Hn vs.
  assert (Hlk : forall k, (k < n)%nat -> vs !! k = Some (Z.of_nat k + 1)).
  { intros k Hk. unfold vs. rewrite calls_lookup by exact Hk.
    cbn [idCounter.new idCounter.id]. f_equal.
    rewrite wrap_in_range; unfold MinInt, MaxInt in *; lia. }
  assert (Hlen : length vs = n) by apply calls_length.
  split; [|split].
  - apply list_eq. intros k. rewrite list_lookup_fmap.
    destruct (decide (k < n)%nat) as [Hk|Hk].
    + rewrite Hlk by exact Hk. rewrite lookup_seq_lt by exact Hk.
      cbn. f_equal. lia.
    + rewrite (lookup_ge_None_2 vs k) by lia.
      rewrite (lookup_ge_None_2 (seq 1 n) k); [reflexivity|].
      rewrite length_seq. lia.
  - intros j k a b Hjk Ha Hb.
    assert (k < n)%nat as Hk by (rewrite <- Hlen; eapply lookup_lt_Some; eauto).
    rewrite Hlk in Ha, Hb by lia.
    injection Ha as <-. injection Hb as <-. lia.
  - intros Hpos. rewrite Hlk by exact Hpos. reflexivity.
Qed.

Lemma Next_run_in_range_witness :
  Z.of_nat 4 <= MaxInt
  /\ fst (idCounter.calls 4 idCounter.new) = [1; 2; 3; 4].
Proof.
  split; [unfold MaxInt; lia|].
  exact (proj1 (Next_run_in_range 4 ltac:(unfold MaxInt; lia))).
Defined.

(** C3 as stated fails once the counter passes the largest [int]: call
    number 2^63 on a fresh counter returns the smallest [int], which is
    below what the call before it returned. *)
Lemma Next_wraps_past_MaxInt :
  fst (idCounter.calls (Z.to_nat 9223372036854775808) idCounter.new)
    !! (Z.to_nat 9223372036854775808 - 2)%nat
  = Some 9223372036854775807
  /\ fst (idCounter.calls (Z.to_nat 9223372036854775808) idCounter.new)
       !! (Z.to_nat 9223372036854775808 - 1)%nat
     = Some (-9223372036854775808).
Proof.
  generalize (Z2Nat.id 9223372036854775808 ltac:(lia)).
  generalize (Z.to_nat 9223372036854775808). intros n Hn.
  split; rewrite calls_lookup by lia; cbn [idCounter.new idCounter.id]; f_equal.
  - replace (0 + Z.of_nat (n - 2) + 1) with 9223372036854775807 by lia.
    reflexivity.
  - replace (0 + Z.of_nat (n - 1) + 1) with 9223372036854775808 by lia.
    reflexivity.
Qed.

End IdCounter.

(** ** The health monitor *)

Section Monitor.

Variable aps : availablePlugins.t.

(** The background loop never touches the channels or the [quit] field,
    and the only state it ever writes is [MonitorStopped]. *)
Lemma step_frame (s s' : monitor.t * env) :
  monitor.step aps s s' ->
  monitor.quit (fst s') = monitor.quit (fst s)
  /\ chans (snd s') = chans (snd s)
  /\ (monitor.State (fst s) = monitor.MonitorStopped ->
      monitor.State (fst s') = monitor.MonitorStopped).
Proof. intros H. destruct H; cbn; auto. Qed.

Lemma steps_frame (s s' : monitor.t * env) :
  monitor.steps aps s s' ->
  monitor.quit (fst s') = monitor.quit (fst s)
  /\ chans (snd s') = chans (snd s)
  /\ (monitor.State (fst s) = monitor.MonitorStopped ->
      monitor.State (fst s') = monitor.MonitorStopped).
Proof.
  induction 1 as [s|s1 s2 s3 H12 _ IH]; [auto|].
  destruct (step_frame _ _ H12) as (Hq & Hc & Hs).
  destruct IH as (Hq' & Hc' & Hs').
  rewrite Hq', Hc', Hq, Hc. auto.
Qed.

(** [Start] makes a fresh, open channel and stores it in [quit]. *)
Lemma Start_quit_open (m : monitor.t) (e : env) :
  let s := monitor.Start aps m e in
  monitor.quit (fst s) = Some (length (chans e))
  /\ chans (snd s) = chans e ++ [false]
  /\ monitor.State (fst s) = monitor.MonitorStarted.
Proof. cbn. auto. Qed.

Lemma Stop_open (m : monitor.t) (e : env) (c : nat) :
  monitor.quit m = Some c -> chans e !! c = Some false ->
  monitor.Stop m e
  = (Done (), (monitor.mk monitor.MonitorStopped (Some c),
               mkEnv (<[c := true]> (chans e)) (goroutines e) (trace e))).
Proof.
  intros Hq Hc. unfold monitor.Stop, close. rewrite Hq, Hc. reflexivity.
Qed.

Lemma Stop_closed (m : monitor.t) (e : env) (c : nat) :
  monitor.quit m = Some c -> chans e !! c = Some true ->
  monitor.Stop m e = (Panicked closed_close_msg, (m, e)).
Proof.
  intros Hq Hc. unfold monitor.Stop, close. rewrite Hq, Hc. reflexivity.
Qed.

Lemma Stop_nil (m : monitor.t) (e : env) :
  monitor.quit m = None ->
  monitor.Stop m e = (Panicked nil_close_msg, (m, e)).
Proof. intros Hq. unfold monitor.Stop, close. rewrite Hq. reflexivity. Qed.

(** What a run of [Start] followed by [Stop] reaches, whatever the
    goroutines do in between: no panic, the state [MonitorStopped], and
    the channel of [quit] closed. *)
Lemma run_Start_Stop_inv (s1 s2 s3 s4 s5 : monitor.t * env) :
  monitor.steps aps s1 s2 ->
  monitor.steps aps (monitor.Start aps (fst s2) (snd s2)) s3 ->
  monitor.steps aps (snd (monitor.Stop (fst s3) (snd s3))) s4 ->
  monitor.steps aps s4 s5 ->
  fst (monitor.Stop (fst s3) (snd s3)) = Done ()
  /\ monitor.State (fst s5) = monitor.MonitorStopped
  /\ exists c, monitor.quit (fst s5) = Some c /\ chans (snd s5) !! c = Some true.
Proof.
  intros H12 H23 H34 H45.
  destruct (Start_quit_open (fst s2) (snd s2)) as (Hq & Hc & _).
  destruct (steps_frame _ _ H23) as (Hq3 & Hc3 & _).
  rewrite Hq in Hq3. rewrite Hc in Hc3.
  assert (Hopen : chans (snd s3) !! length (chans (snd s2)) = Some false).
  { rewrite Hc3. rewrite lookup_app_r by lia.
    replace (length (chans (snd s2)) - length (chans (snd s2)))%nat
      with 0%nat by lia. reflexivity. }
  rewrite (Stop_open _ _ _ Hq3 Hopen) in *. cbn [fst snd] in *.
  destruct (steps_frame _ _ H34) as (Hq4 & Hc4 & Hs4).
  destruct (steps_frame _ _ H45) as (Hq5 & Hc5 & Hs5).
  cbn [fst snd monitor.quit monitor.State chans] in *.
  split; [reflexivity|]. split; [auto|].
  exists (length (chans (snd s2))). split; [congruence|].
  rewrite Hc5, Hc4. apply list_lookup_insert_eq.
  eapply lookup_lt_Some; eauto.
Qed.

Ltac inv_run H :=
  inversion H; subst; clear H;
  repeat match goal with
         | E : monitor.call _ monitor.OpStart _ = _ |- _ =>
             cbn [monitor.call] in E; inversion E; subst; clear E
         | E : monitor.call _ monitor.OpStop _ = _ |- _ =>
             cbn [monitor.call] in E
         end.

Lemma run_Start_Stop (s : monitor.t * env) (ops : list monitor.op)
    (r : outcome unit) (s' : monitor.t * env) :
  monitor.run aps (monitor.OpStart :: monitor.OpStop :: ops) s r s' ->
  exists s2 s3,
    monitor.steps aps s s2
    /\ monitor.steps aps (monitor.Start aps (fst s2) (snd s2)) s3
    /\ fst (monitor.Stop (fst s3) (snd s3)) = Done ()
    /\ monitor.run aps ops (snd (monitor.Stop (fst s3) (snd s3))) r s'.
Proof.
  intros H. inv_run H.
  match goal with H : monitor.run _ (_ :: _) _ _ _ |- _ => inv_run H end.
  - match goal with
    | H1 : monitor.steps _ s ?a, H2 : monitor.steps _ (monitor.Start _ _ _) ?b |- _ =>
        destruct (run_Start_Stop_inv s a b _ _ H1 H2
                    (monitor.steps_refl _ _) (monitor.steps_refl _ _))
          as (Hd & _)
    end.
    match goal with E : monitor.Stop _ _ = _ |- _ => rewrite E in Hd end.
    discriminate Hd.
  - match goal with
    | H1 : monitor.steps _ s ?a, H2 : monitor.steps _ (monitor.Start _ _ _) ?b,
      E : monitor.Stop _ _ = _ |- _ =>
        exists a, b; rewrite E; cbn [fst snd]; auto
    end.
Qed.

End Monitor.

(** Back-to-back calls are one of the runs. *)
Lemma exec_run (aps : availablePlugins.t) (ops : list monitor.op) :
  forall s : monitor.t * env,
    monitor.run aps ops s (fst (monitor.exec aps ops s))
      (snd (monitor.exec aps ops s)).
Proof.
  induction ops as [|o ops IH]; intros s; cbn [monitor.exec].
  - apply monitor.run_nil, monitor.steps_refl.
  - destruct (monitor.call aps o s) as [[[]|v] s1] eqn:E; cbn [fst snd].
    + eapply monitor.run_cons; [apply monitor.steps_refl|exact E|apply IH].
    + eapply monitor.run_panic; [apply monitor.steps_refl|exact E].
Qed.

(** C4, as the code has it: from any state of the monitor, however the
    goroutine of the monitor is scheduled, [Start] followed by [Stop]
    does not panic and leaves the state [MonitorStopped]; a second [Stop]
    panics, closing the closed channel, and the state stays
    [MonitorStopped]. Such runs exist: the calls made back to back are
    one. *)
Theorem Start_Stop_then_Stop_again (aps : availablePlugins.t)
    (s : monitor.t * env) :
  (forall r s',
      monitor.run aps [monitor.OpStart; monitor.OpStop] s r s' ->
      r = Done () /\ monitor.State (fst s') = monitor.MonitorStopped)
  /\ (forall r s',
      monitor.run aps [monitor.OpStart; monitor.OpStop; monitor.OpStop] s r s' ->
      r = Panicked closed_close_msg
      /\ monitor.State (fst s') = monitor.MonitorStopped)
  /\ (forall ops,
      monitor.run aps ops s (fst (monitor.exec aps ops s))
        (snd (monitor.exec aps ops s))).
Proof.
  split; [|split].
  - intros r s' H.
    destruct (run_Start_Stop aps _ _ _ _ H) as (s2 & s3 & H2 & H3 & Hd & Hr).
    inversion Hr; subst.
    destruct (run_Start_Stop_inv aps s s2 s3 _ s' H2 H3
                (monitor.steps_refl _ _) ltac:(eassumption)) as (_ & Hs & _).
    auto.
  - intros r s' H.
    destruct (run_Start_Stop aps _ _ _ _ H) as (s2 & s3 & H2 & H3 & Hd & Hr).
    inversion Hr; subst; clear Hr.
    + match goal with
      | Hs : monitor.steps _ _ ?a, E : monitor.call _ _ ?a = _ |- _ =>
          destruct (run_Start_Stop_inv aps s s2 s3 _ a H2 H3
                      (monitor.steps_refl _ _) Hs) as (_ & Hst & c & Hq & Hc);
          cbn [monitor.call] in E;
          rewrite (Stop_closed _ _ c Hq Hc) in E; inversion E; subst
      end.
      auto.
    + match goal with
      | Hs : monitor.steps _ _ ?a, E : monitor.call _ _ ?a = _ |- _ =>
          destruct (run_Start_Stop_inv aps s s2 s3 _ a H2 H3
                      (monitor.steps_refl _ _) Hs) as (_ & Hst & c & Hq & Hc);
          cbn [monitor.call] in E;
          rewrite (Stop_closed _ _ c Hq Hc) in E; discriminate E
      end.
  - intros ops. apply exec_run.
Qed.

Lemma Start_Stop_then_Stop_again_witness :
  monitor.State
    (fst (snd (monitor.exec availablePlugins.new
                 [monitor.OpStart; monitor.OpStop]
                 (monitor.newMonitor, env0))))
  = monitor.MonitorStopped.
Proof.
  destruct (Start_Stop_then_Stop_again availablePlugins.new
              (monitor.newMonitor, env0)) as (H1 & _ & H3).
  exact (proj2 (H1 _ _ (H3 [monitor.OpStart; monitor.OpStop]))).
Defined.

(** C4 as stated fails in its second half: [Start], [Stop] and [Stop]
    again on a new monitor panics at the second [Stop]. *)
Lemma Stop_twice_panics :
  fst (monitor.exec availablePlugins.new [monitor.OpStart; monitor.OpStop]
         (monitor.newMonitor, env0)) = Done ()
  /\ fst (monitor.exec availablePlugins.new
            [monitor.OpStart; monitor.OpStop; monitor.OpStop]
            (monitor.newMonitor, env0))
     = Panicked "close of closed channel".
Proof. split; reflexivity. Qed.

(** ** The trace *)

Lemma emit_emits (ev : event) (e : env) : emit ev e = emits [ev] e.
Proof. reflexivity. Qed.

Lemma emits_emits (l1 l2 : list event) (e : env) :
  emits l2 (emits l1 e) = emits (l1 ++ l2) e.
Proof. unfold emits. cbn. rewrite <- app_assoc. reflexivity. Qed.

Lemma emits_nil (e : env) : emits [] e = e.
Proof. destruct e. unfold emits. cbn. rewrite app_nil_r. reflexivity. Qed.

(** ** Starting and stopping the runner *)

Section StartStop.

Import runner.

(** Every delegate registers: the loop calls each of them, in order. *)
Lemma registerAll_ok (ds : list gomit.Delegator) : forall (i : nat) (e : env),
  Forall registers ds ->
  registerAll i ds e = (None, emits (registrations i (length ds)) e).
Proof.
  induction ds as [|d ds IH]; intros i e Hall; cbn [registerAll].
  - rewrite emits_nil. reflexivity.
  - inversion Hall as [|? ? Hd Hds]; subst. unfold registers in Hd.
    rewrite Hd, IH by exact Hds. rewrite emit_emits, emits_emits.
    reflexivity.
Qed.

(** The first delegate that refuses ends the loop: the delegates after it
    are not called. *)
Lemma registerAll_fails (pre : list gomit.Delegator) :
  forall (i : nat) (e : env) (d : gomit.Delegator)
         (post : list gomit.Delegator) (err : error),
  Forall registers pre ->
  gomit.RegisterHandler d HandlerRegistrationName = Some err ->
  registerAll i (pre ++ d :: post) e
  = (Some err, emits (registrations i (S (length pre))) e).
Proof.
  induction pre as [|d0 pre IH]; intros i e d post err Hall Hd;
    cbn [registerAll app].
  - rewrite Hd. reflexivity.
  - inversion Hall as [|? ? Hd0 Hpre]; subst. unfold registers in Hd0.
    rewrite Hd0, (IH _ _ _ _ _ Hpre Hd). rewrite emit_emits, emits_emits.
    reflexivity.
Qed.

Lemma unregisterAll_collects (ds : list gomit.Delegator) :
  forall (i : nat) (errs : list error) (e : env),
  unregisterAll i ds errs e
  = (errs ++ unregister_errors ds,
     emits (unregistrations i (length ds)) e).
Proof.
  unfold unregister_errors.
  induction ds as [|d ds IH]; intros i errs e; cbn [unregisterAll].
  - rewrite emits_nil. cbn. rewrite app_nil_r. reflexivity.
  - rewrite emit_emits.
    destruct (gomit.UnregisterHandler d HandlerRegistrationName) as [err|] eqn:E;
      rewrite IH, emits_emits; cbn; rewrite E; [rewrite <- app_assoc|];
      reflexivity.
Qed.

Lemma omap_nil_iff {A B : Type} (f : A -> option B) (l : list A) :
  omap f l = [] <-> Forall (fun x => f x = None) l.
Proof.
  induction l as [|x l IH].
  - split; [constructor|reflexivity].
  - cbn. destruct (f x) eqn:E.
    + split; [intros H; discriminate H|].
      intros H. inversion H; congruence.
    + rewrite IH. split; [constructor; assumption|].
      intros H. inversion H; assumption.
Qed.

(** C6: with no delegate, [Start] returns the configuration error and
    changes nothing. With delegates that all accept, it has called
    [RegisterHandler] on each of them in order, then started the monitor
    (a ticker, a fresh [quit] channel, a new goroutine, the state
    [MonitorStarted]), and returns nil. When a delegate refuses, after
    delegates that accepted, [Start] returns the error of that delegate
    at once: the later delegates are not called and the monitor is not
    started (the runner is unchanged, no channel, no goroutine). *)
Theorem Start_registers_then_starts_monitor (r : runner.t) (e : env) :
  (delegates r = [] -> Start (r, e) = (Some no_delegates_msg, (r, e)))
  /\ (delegates r <> [] -> Forall registers (delegates r) ->
      Start (r, e)
      = (None,
         (set_monitor
            (monitor.mk monitor.MonitorStarted (Some (length (chans e)))) r,
          mkEnv (chans e ++ [false]) (goroutines e ++ [GSelect])
            (trace e ++ registrations 0 (length (delegates r))
               ++ [ENewTicker monitor.DefaultMonitorDuration;
                   ELog LDebug "runner.start" "started" []]))))
  /\ (forall pre d post err,
        delegates r = pre ++ d :: post -> Forall registers pre ->
        gomit.RegisterHandler d HandlerRegistrationName = Some err ->
        Start (r, e)
        = (Some err, (r, emits (registrations 0 (S (length pre))) e))).
Proof.
  split; [|split].
  - intros Hd. unfold Start. rewrite Hd. reflexivity.
  - intros Hne Hall. unfold Start.
    rewrite bool_decide_eq_false_2
      by (destruct (delegates r); [congruence|discriminate]).
    rewrite registerAll_ok by exact Hall.
    unfold monitor.Start, emit, emits. cbn.
    rewrite <- !app_assoc. reflexivity.
  - intros pre d post err Hd Hall Herr. unfold Start.
    rewrite bool_decide_eq_false_2
      by (rewrite Hd, length_app; cbn; lia).
    rewrite Hd, (registerAll_fails _ _ _ _ _ _ Hall Herr). reflexivity.
Qed.

(** C7: [Stop] first stops the monitor, and panics, before any delegate
    is called, exactly when stopping the monitor panics; otherwise it
    goes on to call [UnregisterHandler] on every delegate in order,
    whatever the earlier ones answered, and returns the errors of all
    those that failed. On a runner whose monitor is running ([quit] is an
    open channel) the monitor ends stopped, its channel closed, and the
    list is returned. The list is empty exactly when every delegate
    unregistered, and holds the error of every delegate that did not. *)
Theorem Stop_collects_every_error (r : runner.t) (e : env) :
  Stop (r, e)
  = match monitor.Stop (monitor r) e with
    | (Panicked v, _) => (Panicked v, (r, e))
    | (Done _, (m, e1)) =>
        (Done (unregister_errors (delegates r)),
         (set_monitor m r,
          mkEnv (chans e1) (goroutines e1)
            (trace e1 ++ unregistrations 0 (length (delegates r))
               ++ [ELog LDebug "runner.stop" "stopped" []])))
    end
  /\ (forall c,
        monitor.quit (monitor r) = Some c ->
        chans e !! c = Some false ->
        Stop (r, e)
        = (Done (unregister_errors (delegates r)),
           (set_monitor (monitor.mk monitor.MonitorStopped (Some c)) r,
            mkEnv (<[c := true]> (chans e)) (goroutines e)
              (trace e ++ unregistrations 0 (length (delegates r))
                 ++ [ELog LDebug "runner.stop" "stopped" []]))))
  /\ (unregister_errors (delegates r) = [] <->
      Forall (fun d => gomit.UnregisterHandler d HandlerRegistrationName = None)
        (delegates r))
  /\ (forall k d err,
        delegates r !! k = Some d ->
        gomit.UnregisterHandler d HandlerRegistrationName = Some err ->
        err ∈ unregister_errors (delegates r)).
Proof.
  assert (Hgen :
    Stop (r, e)
    = match monitor.Stop (monitor r) e with
      | (Panicked v, _) => (Panicked v, (r, e))
      | (Done _, (m, e1)) =>
          (Done (unregister_errors (delegates r)),
           (set_monitor m r,
            mkEnv (chans e1) (goroutines e1)
              (trace e1 ++ unregistrations 0 (length (delegates r))
                 ++ [ELog LDebug "runner.stop" "stopped" []])))
      end).
  { unfold Stop.
    destruct (monitor.Stop (monitor r) e) as [[[]|v] [m e1]]; [|reflexivity].
    rewrite unregisterAll_collects. unfold emit, emits. cbn.
    rewrite <- !app_assoc. reflexivity. }
  split; [exact Hgen|]. split; [|split].
  - intros c Hq Hc. rewrite Hgen, (Stop_open _ _ c Hq Hc). reflexivity.
  - apply omap_nil_iff.
  - intros k d err Hk Herr. unfold unregister_errors.
    apply list_elem_of_omap. exists d. split; [|exact Herr].
    eapply list_elem_of_lookup_2; eauto.
Qed.

(** C9: [newMonitor] leaves [quit] nil, and [Stop] on a monitor whose
    [quit] is nil panics closing the nil channel, whatever the goroutines
    of the program did before; so [Stop] panics on a runner whose monitor
    was never started, before any delegate is called, and on a runner
    whose [Start] returned an error. *)
Theorem Stop_before_Start_panics :
  monitor.quit monitor.newMonitor = None
  /\ (forall e,
        monitor.Stop monitor.newMonitor e
        = (Panicked nil_close_msg, (monitor.newMonitor, e)))
  /\ (forall aps e r s',
        monitor.run aps [monitor.OpStop] (monitor.newMonitor, e) r s' ->
        r = Panicked nil_close_msg)
  /\ (forall r e,
        monitor r = monitor.newMonitor ->
        Stop (r, e) = (Panicked nil_close_msg, (r, e)))
  /\ (forall r e err s',
        monitor r = monitor.newMonitor ->
        Start (r, e) = (Some err, s') ->
        Stop s' = (Panicked nil_close_msg, s')).
Proof.
  split; [reflexivity|]. split; [reflexivity|]. split; [|split].
  - intros aps e r s' H. inversion H; subst; clear H.
    + match goal with
      | Hs : monitor.steps _ _ ?a, E : monitor.call _ _ ?a = _ |- _ =>
          destruct (steps_frame _ _ _ Hs) as (Hq & _);
          cbn [monitor.call] in E;
          rewrite (Stop_nil _ _ Hq) in E; inversion E; subst
      end.
      reflexivity.
    + match goal with
      | Hs : monitor.steps _ _ ?a, E : monitor.call _ _ ?a = _ |- _ =>
          destruct (steps_frame _ _ _ Hs) as (Hq & _);
          cbn [monitor.call] in E;
          rewrite (Stop_nil _ _ Hq) in E; discriminate E
      end.
  - intros r e Hm. unfold Stop. rewrite Hm. reflexivity.
  - intros r e err s' Hm HS. unfold Start in HS.
    destruct (bool_decide _) in HS.
    + inversion HS; subst. unfold Stop. rewrite Hm. reflexivity.
    + destruct (registerAll 0 (delegates r) e) as [[err'|] e1].
      * inversion HS; subst. unfold Stop. rewrite Hm. reflexivity.
      * discriminate HS.
Qed.

Lemma Start_registers_then_starts_monitor_witness :
  Start (Samples.three_delegates, env0)
  = (Some "refused",
     (Samples.three_delegates,
      mkEnv [] []
        [ERegisterHandler 0 "control.runner";
         ERegisterHandler 1 "control.runner"])).
Proof.
  exact (proj2 (proj2 (Start_registers_then_starts_monitor
                         Samples.three_delegates env0))
           [Samples.accepting] Samples.refusing [Samples.accepting] "refused"
           eq_refl ltac:(repeat constructor) eq_refl).
Defined.

Lemma Stop_collects_every_error_witness :
  fst (Stop Samples.started) = Done ["busy"]
  /\ trace (snd (snd (Stop Samples.started)))
     = [ERegisterHandler 0 "control.runner";
        ERegisterHandler 1 "control.runner";
        ERegisterHandler 2 "control.runner";
        ENewTicker 60000000000;
        ELog LDebug "runner.start" "started" [];
        EUnregisterHandler 0 "control.runner";
        EUnregisterHandler 1 "control.runner";
        EUnregisterHandler 2 "control.runner";
        ELog LDebug "runner.stop" "stopped" []].
Proof.
  pose proof (proj1 (proj2 (Stop_collects_every_error
                              (fst Samples.started) (snd Samples.started)))
                0%nat eq_refl eq_refl) as H.
  change (fst Samples.started, snd Samples.started) with Samples.started in H.
  rewrite H. split; reflexivity.
Defined.

Lemma Stop_before_Start_panics_witness :
  Stop (Samples.three_delegates, env0)
  = (Panicked "close of nil channel", (Samples.three_delegates, env0))
  /\ Stop (snd (Start (Samples.three_delegates, env0)))
     = (Panicked "close of nil channel", snd (Start (Samples.three_delegates, env0))).
Proof.
  destruct Stop_before_Start_panics as (_ & _ & _ & H4 & H5).
  split.
  - exact (H4 Samples.three_delegates env0 eq_refl).
  - exact (H5 Samples.three_delegates env0 "refused" _ eq_refl eq_refl).
Defined.

End StartStop.

(** ** The admission check *)

Section Admission.

Import runner.
Local Open Scope Z_scope.

(** All [checkPool] does besides answering is write one debug log
    entry. *)
Lemma checkPool_log (pool : option availablePlugins.pool) (key : string) :
  exists l, snd (checkPool pool key) = [l] /\ is_log l.
Proof.
  unfold checkPool, is_log.
  destruct pool as [p|]; [destruct (_ <=? _)|]; cbn [snd];
    eexists; (split; [reflexivity|]); eauto.
Qed.

(** C2: [checkPool] answers true exactly when the pool is absent or
    counts fewer than 3 instances, false exactly when the pool exists and
    counts 3 or more; in every case all it does besides is write one
    debug log entry. *)
Theorem checkPool_grants_below_maximum
    (pool : option availablePlugins.pool) (key : string) :
  (fst (checkPool pool key) = true <->
     pool = None \/ exists p, pool = Some p /\ availablePlugins.Count p < 3)
  /\ (fst (checkPool pool key) = false <->
     exists p, pool = Some p /\ 3 <= availablePlugins.Count p)
  /\ MaximumRunningPlugins = 3
  /\ (exists fmt args,
        snd (checkPool pool key) = [ELog LDebug "runner.events" fmt args]).
Proof.
  unfold checkPool, MaximumRunningPlugins.
  destruct pool as [p|]; cbn [fst snd default].
  - destruct (Z.leb_spec 3 (availablePlugins.Count p)) as [H|H]; cbn [fst snd].
    + split; [split; [discriminate|]|].
      { intros [Habs|(q & Hq & Hlt)]; [discriminate|].
        injection Hq as <-. lia. }
      split; [split; [eauto|reflexivity]|].
      split; [reflexivity|eauto].
    + split; [split; [eauto|reflexivity]|].
      split; [split; [discriminate|]|].
      { intros (q & Hq & Hge). injection Hq as <-. lia. }
      split; [reflexivity|eauto].
  - split; [split; [eauto|reflexivity]|].
    split; [split; [discriminate|]|].
    { intros (q & Hq & _). discriminate. }
    split; [reflexivity|eauto].
Qed.

End Admission.

(** ** The plugin start sequence *)

Section StartSequence.

Import runner.

Variable newAvailablePlugin :
  plugin.Response -> Z -> gomit.Emitter -> availablePlugin.t + error.

Local Abbreviation startPlugin := (runner.startPlugin newAvailablePlugin).
Local Abbreviation startFailure := (runner.startFailure newAvailablePlugin).

(** The start sequence written as a decision list over the answers of
    the collaborators, in the order the code asks for them. *)
Lemma startPlugin_cases (p : plugin.executablePlugin) (r : t) (e : env) :
  let res := fst (startPlugin p (r, e)) in
  let r' := fst (snd (startPlugin p (r, e))) in
  match plugin.Start p with
  | Some err =>
      res = inr (start_error_prefix +:+ err)
      /\ availablePlugins r' = availablePlugins r
  | None =>
      match plugin.WaitForResponse p handshake_timeout with
      | (_, Some err) =>
          res = inr (wait_error_prefix +:+ err)
          /\ availablePlugins r' = availablePlugins r
      | (None, None) =>
          res = inr no_response_msg
          /\ availablePlugins r' = availablePlugins r
      | (Some resp, None) =>
          if decide (plugin.State resp = plugin.PluginSuccess) then
            match newAvailablePlugin resp
                    (fst (idCounter.Next (apIdCounter r))) (emitter r) with
            | inr err => res = inr err /\ availablePlugins r' = availablePlugins r
            | inl ap =>
                match plugin.Ping (availablePlugin.Client ap) with
                | Some err =>
                    res = inr err /\ availablePlugins r' = availablePlugins r
                | None =>
                    res = inl ap
                    /\ availablePlugins r'
                       = availablePlugins.Insert ap (availablePlugins r)
                end
            end
          else
            res = inr (not_started_prefix +:+ plugin.ErrorMessage resp)
            /\ availablePlugins r' = availablePlugins r
      end
  end.
Proof.
  cbn zeta. unfold runner.startPlugin.
  destruct (plugin.Start p) as [err|]; [split; reflexivity|].
  destruct (plugin.WaitForResponse p handshake_timeout) as [[resp|] [err|]];
    try (split; reflexivity).
  destruct (decide (plugin.State resp = plugin.PluginSuccess)) as [Hs|Hs].
  - rewrite bool_decide_eq_false_2 by (intros Hn; exact (Hn Hs)).
    rewrite Next_value. cbn [fst emitter set_apIdCounter].
    destruct (newAvailablePlugin resp _ (emitter r)) as [ap|err];
      [|split; reflexivity].
    destruct (plugin.Ping (availablePlugin.Client ap)); split; reflexivity.
  - rewrite bool_decide_eq_true_2 by exact Hs. split; reflexivity.
Qed.

(** C1: when the start sequence fails at any of its steps, [startPlugin]
    returns an error and the registry is what it was; indeed whenever it
    returns an error the sequence failed at one of these steps and the
    registry is what it was. The only other way out inserts the instance
    it returns, and one of the two happens. *)
Theorem startPlugin_failure_leaves_registry
    (p : plugin.executablePlugin) (r : t) (e : env) :
  (startFailure p r ->
     exists err,
       fst (startPlugin p (r, e)) = inr err
       /\ availablePlugins (fst (snd (startPlugin p (r, e))))
          = availablePlugins r)
  /\ (forall err,
        fst (startPlugin p (r, e)) = inr err ->
        startFailure p r
        /\ availablePlugins (fst (snd (startPlugin p (r, e))))
           = availablePlugins r)
  /\ (forall ap,
        fst (startPlugin p (r, e)) = inl ap ->
        availablePlugins (fst (snd (startPlugin p (r, e))))
        = availablePlugins.Insert ap (availablePlugins r))
  /\ (startFailure p r \/ exists ap, fst (startPlugin p (r, e)) = inl ap).
Proof.
  pose proof (startPlugin_cases p r e) as H. cbn zeta in H.
  match goal with
  | |- ?G =>
      assert (Hfail : forall err0,
                startFailure p r ->
                fst (startPlugin p (r, e)) = inr err0
                /\ availablePlugins (fst (snd (startPlugin p (r, e))))
                   = availablePlugins r ->
                G)
  end.
  { intros err0 Hf [Hres Hreg]. rewrite Hres.
    split; [intros _; eauto|].
    split; [intros err' _; split; [exact Hf|exact Hreg]|].
    split; [intros ap' Habs; discriminate Habs|left; exact Hf]. }
  destruct (plugin.Start p) as [err0|] eqn:HS.
  { eapply Hfail; [eapply fail_process|]; eauto. }
  destruct (plugin.WaitForResponse p handshake_timeout) as [resp [err0|]] eqn:HW.
  { destruct resp; (eapply Hfail; [eapply fail_handshake|]; eauto). }
  destruct resp as [resp|];
    [|eapply Hfail; [eapply fail_no_response|]; eauto].
  destruct (decide (plugin.State resp = plugin.PluginSuccess)) as [Hst|Hst];
    [|eapply Hfail; [eapply fail_status|]; eauto].
  destruct (newAvailablePlugin resp _ (emitter r)) as [ap|err0] eqn:HN;
    [|eapply Hfail; [eapply fail_construction|]; eauto].
  destruct (plugin.Ping (availablePlugin.Client ap)) as [err0|] eqn:HP;
    [eapply Hfail; [eapply fail_ping|]; eauto|].
  clear Hfail. destruct H as [Hres Hreg]. rewrite Hres.
  split.
  { intros Hf. exfalso. destruct Hf; congruence. }
  split; [intros err Habs; discriminate Habs|].
  split; [|right; eauto].
  intros ap' Hap. injection Hap as <-. exact Hreg.
Qed.

(** The result of the start sequence depends on the handle only through
    [Start()] and [WaitForResponse] at the handshake timeout. *)
Lemma startPlugin_ext (p p' : plugin.executablePlugin) (s : t * env) :
  plugin.Start p' = plugin.Start p ->
  plugin.WaitForResponse p' handshake_timeout
  = plugin.WaitForResponse p handshake_timeout ->
  startPlugin p' s = startPlugin p s.
Proof.
  intros HS HW. destruct s as [r e]. unfold runner.startPlugin.
  rewrite HS, HW. reflexivity.
Qed.

(** C8: once the process has started, the start sequence waits for the
    handshake exactly once, with the fixed timeout of 3 seconds, and no
    other duration matters to its result. An error of the transport,
    time-out included, is returned with the prefix of the wait; a nil
    response with no error is returned as the separate no-response
    error, which carries neither prefix; a response that does not report
    success is returned with the message of the plugin appended. *)
Theorem handshake_errors (p : plugin.executablePlugin) (r : t) (e : env) :
  plugin.Start p = None ->
  handshake_timeout = (3 * 1000000000)%Z
  /\ (exists tr,
        trace (snd (snd (startPlugin p (r, e))))
        = trace e ++ EStart :: EWaitForResponse 3000000000 :: tr
        /\ Forall not_a_wait tr)
  /\ (forall p',
        plugin.Start p' = None ->
        plugin.WaitForResponse p' 3000000000
        = plugin.WaitForResponse p 3000000000 ->
        startPlugin p' (r, e) = startPlugin p (r, e))
  /\ (forall resp err,
        plugin.WaitForResponse p 3000000000 = (resp, Some err) ->
        fst (startPlugin p (r, e))
        = inr ("error while waiting for response: " +:+ err))
  /\ (plugin.WaitForResponse p 3000000000 = (None, None) ->
      fst (startPlugin p (r, e))
      = inr "no reponse object returned from plugin")
  /\ (forall resp,
        plugin.WaitForResponse p 3000000000 = (Some resp, None) ->
        plugin.State resp <> plugin.PluginSuccess ->
        fst (startPlugin p (r, e))
        = inr ("plugin could not start error: " +:+ plugin.ErrorMessage resp))
  /\ (forall x,
        no_response_msg <> wait_error_prefix +:+ x
        /\ no_response_msg <> not_started_prefix +:+ x
        /\ no_response_msg <> start_error_prefix +:+ x).
Proof.
  intros HS.
  change 3000000000%Z with handshake_timeout.
  split; [reflexivity|]. split; [|split; [|split; [|split; [|split]]]].
  - unfold runner.startPlugin. rewrite HS.
    destruct (plugin.WaitForResponse p handshake_timeout) as [[resp|] [err|]];
      cbn [snd fst trace emit];
      try (exists []; rewrite <- app_assoc; split; [reflexivity|constructor]).
    case_bool_decide;
      [exists []; cbn; rewrite <- app_assoc; split; [reflexivity|constructor]|].
    rewrite Next_value.
    destruct (newAvailablePlugin resp _ _) as [ap|err];
      [|exists []; cbn; rewrite <- app_assoc; split; [reflexivity|constructor]].
    destruct (plugin.Ping (availablePlugin.Client ap)).
    + exists [EPing]. cbn. rewrite <- !app_assoc. split; [reflexivity|].
      repeat constructor. intros d Hd. discriminate Hd.
    + eexists [EPing; _]. cbn. rewrite <- !app_assoc. split; [reflexivity|].
      repeat constructor; intros d Hd; discriminate Hd.
  - intros p' HS' HW. apply startPlugin_ext; congruence.
  - intros resp err HW. unfold runner.startPlugin. rewrite HS, HW.
    destruct resp; reflexivity.
  - intros HW. unfold runner.startPlugin. rewrite HS, HW. reflexivity.
  - intros resp HW Hst. unfold runner.startPlugin. rewrite HS, HW.
    rewrite bool_decide_eq_true_2 by exact Hst. reflexivity.
  - intros x. repeat split; intros Habs; discriminate Habs.
Qed.

End StartSequence.

Lemma startPlugin_failure_leaves_registry_witness :
  exists err,
    fst (runner.startPlugin Samples.newAvailablePlugin
           (Samples.unreachable "bar:2") (runner.newRunner, env0)) = inr err
    /\ runner.availablePlugins
         (fst (snd (runner.startPlugin Samples.newAvailablePlugin
                      (Samples.unreachable "bar:2") (runner.newRunner, env0))))
       = runner.availablePlugins runner.newRunner.
Proof.
  apply (proj1 (startPlugin_failure_leaves_registry Samples.newAvailablePlugin
                  (Samples.unreachable "bar:2") runner.newRunner env0)).
  eapply runner.fail_ping; reflexivity.
Defined.

Lemma handshake_errors_witness :
  fst (runner.startPlugin Samples.newAvailablePlugin Samples.timing_out
         (runner.newRunner, env0))
  = inr "error while waiting for response: timeout".
Proof.
  destruct (handshake_errors Samples.newAvailablePlugin Samples.timing_out
              runner.newRunner env0 eq_refl) as (_ & _ & _ & H & _).
  exact (H None "timeout" eq_refl).
Defined.

(** ** The publisher demand event *)

Section PublisherEvent.

Import runner.

Variable newAvailablePlugin :
  plugin.Response -> Z -> gomit.Emitter -> availablePlugin.t + error.
Variable NewExecutablePlugin :
  list string -> string -> plugin.executablePlugin * option error.
Variable pm : managesPlugins.
Variable PluginName : string.
Variable PluginVersion : Z.

Local Abbreviation startPlugin := (runner.startPlugin newAvailablePlugin).
Local Abbreviation body :=
  (publisherBody newAvailablePlugin NewExecutablePlugin pm
     PluginName PluginVersion).
Local Abbreviation loop :=
  (publisherLoop newAvailablePlugin NewExecutablePlugin pm
     PluginName PluginVersion).
Local Abbreviation wanted := (matches PluginName PluginVersion).
Local Abbreviation seen := (examined PluginName PluginVersion).

(** A loaded plugin that does not match is passed over. *)
Lemma body_other (lp : loadedPlugin) (r : t) (e : env) :
  ~ wanted lp -> body lp (r, e) = (Continue, (r, emits (seen lp) e)).
Proof.
  intros Hn. unfold publisherBody.
  rewrite bool_decide_eq_false_2 by exact Hn. reflexivity.
Qed.

(** A match that is denied: nothing is spawned and the handler
    returns. *)
Lemma body_denied (lp : loadedPlugin) (r : t) (e : env) :
  wanted lp -> granted r lp = false ->
  exists l, is_log l
    /\ body lp (r, e) = (Returned, (r, emits (seen lp ++ [l]) e)).
Proof.
  intros Hm Hg. unfold publisherBody, granted in *.
  rewrite bool_decide_eq_true_2 by exact Hm.
  destruct (checkPool_log
              (availablePlugins.GetPluginPool
                 (availablePlugins.Publishers (availablePlugins r)) (Key lp))
              (Key lp)) as (l & Hl & Hlog).
  destruct (checkPool _ (Key lp)) as [ok logs]. cbn [fst snd] in *.
  subst ok logs. cbn [negb]. exists l. split; [exact Hlog|].
  rewrite emits_emits. reflexivity.
Qed.

(** A match that is granted: the handle built for its path is started;
    the loop goes on when the start succeeds and the handler panics with
    the error of the start when it fails. *)
Lemma body_granted (lp : loadedPlugin) (r : t) (e : env) :
  wanted lp -> granted r lp = true ->
  exists l, is_log l
    /\ let args := GenerateArgs pm (Path lp) in
       let res :=
         startPlugin (fst (NewExecutablePlugin args (Path lp)))
           (r, emits (seen lp ++ [l; ENewExecutablePlugin args (Path lp)]) e) in
       body lp (r, e)
       = match fst res with
         | inl _ => (Continue, snd res)
         | inr err =>
             (Panics err, (fst (snd res), emit (EPrintln err) (snd (snd res))))
         end.
Proof.
  intros Hm Hg. unfold publisherBody, granted in *.
  rewrite bool_decide_eq_true_2 by exact Hm.
  destruct (checkPool_log
              (availablePlugins.GetPluginPool
                 (availablePlugins.Publishers (availablePlugins r)) (Key lp))
              (Key lp)) as (l & Hl & Hlog).
  destruct (checkPool _ (Key lp)) as [ok logs]. cbn [fst snd] in *.
  subst ok logs. cbn [negb]. exists l. split; [exact Hlog|]. cbn zeta.
  destruct (NewExecutablePlugin _ (Path lp)) as [h err]. cbn [fst].
  rewrite emit_emits, !emits_emits. unfold examined. cbn [app].
  destruct (runner.startPlugin _ h _) as [[ap|err'] s']; reflexivity.
Qed.

(** The start sequence only appends to the trace, and what it appends
    builds no handle. *)
Lemma startPlugin_trace (p : plugin.executablePlugin) (r : t) (e : env) :
  exists tr,
    trace (snd (snd (startPlugin p (r, e)))) = trace e ++ tr
    /\ spawns tr = [].
Proof.
  unfold runner.startPlugin.
  destruct (plugin.Start p) as [err|].
  { eexists [_; _]. cbn. rewrite <- !app_assoc. split; reflexivity. }
  destruct (plugin.WaitForResponse p handshake_timeout) as [[resp|] [err|]];
    try (eexists [_; _]; cbn; rewrite <- !app_assoc; split; reflexivity).
  case_bool_decide;
    [eexists [_; _]; cbn; rewrite <- !app_assoc; split; reflexivity|].
  rewrite Next_value.
  destruct (newAvailablePlugin resp _ _) as [ap|err];
    [|eexists [_; _]; cbn; rewrite <- !app_assoc; split; reflexivity].
  destruct (plugin.Ping (availablePlugin.Client ap)).
  - eexists [_; _; _]. cbn. rewrite <- !app_assoc. split; reflexivity.
  - eexists [_; _; _; _]. cbn. rewrite <- !app_assoc. split; reflexivity.
Qed.

Lemma spawns_app (l1 l2 : list event) :
  spawns (l1 ++ l2) = spawns l1 ++ spawns l2.
Proof. apply omap_app. Qed.

Lemma spawns_log (l : event) : is_log l -> spawns [l] = [].
Proof. intros (lvl & tag & fmt & args & ->). reflexivity. Qed.

Lemma spawns_seen (lp : loadedPlugin) : spawns (seen lp) = [].
Proof. reflexivity. Qed.

(** The handles built during the loop are those of the first [k]
    matching plugins, in order, for some [k]. *)
Lemma loop_spawns (lps : list loadedPlugin) : forall s : t * env,
  exists k,
    spawns (trace (snd (snd (loop lps s))))
    = spawns (trace (snd s)) ++ (Path <$> take k (filter wanted lps)).
Proof.
  induction lps as [|lp lps IH]; intros [r e]; cbn [publisherLoop].
  { exists 0%nat. cbn. rewrite app_nil_r. reflexivity. }
  destruct (decide (wanted lp)) as [Hm|Hm].
  2:{ rewrite body_other by exact Hm.
      destruct (IH (r, emits (seen lp) e)) as [k Hk]. exists k.
      rewrite Hk. rewrite filter_cons_False by exact Hm.
      cbn [snd emits trace]. rewrite spawns_app, spawns_seen, app_nil_r.
      reflexivity. }
  rewrite (filter_cons_True _ _ _ Hm).
  destruct (granted r lp) eqn:Hg.
  - destruct (body_granted lp r e Hm Hg) as (l & Hl & Hb). cbn zeta in Hb.
    rewrite Hb. clear Hb.
    destruct (startPlugin_trace
                (fst (NewExecutablePlugin (GenerateArgs pm (Path lp)) (Path lp)))
                r (emits (seen lp ++ [l; ENewExecutablePlugin
                                           (GenerateArgs pm (Path lp)) (Path lp)]) e))
      as (tr & Htr & Hsp).
    assert (Hpre : spawns (trace e ++ (seen lp ++ [l; ENewExecutablePlugin
                      (GenerateArgs pm (Path lp)) (Path lp)]) ++ tr)
                   = spawns (trace e) ++ [Path lp]).
    { rewrite !spawns_app, Hsp.
      change [l; ENewExecutablePlugin (GenerateArgs pm (Path lp)) (Path lp)]
        with ([l] ++ [ENewExecutablePlugin (GenerateArgs pm (Path lp)) (Path lp)]).
      rewrite spawns_app, (spawns_log l Hl), spawns_seen. cbn.
      rewrite ?app_nil_r. reflexivity. }
    destruct (runner.startPlugin _ _ _) as [[ap|err] s'] eqn:E; cbn [fst snd] in *.
    + destruct (IH s') as [k Hk]. exists (S k). rewrite Hk, Htr.
      cbn [emits trace]. rewrite <- app_assoc, Hpre.
      cbn. rewrite <- app_assoc. reflexivity.
    + exists 1%nat. cbn [emit trace]. rewrite Htr. cbn [emits trace].
      rewrite spawns_app, <- app_assoc, Hpre. cbn.
      rewrite app_nil_r. reflexivity.
  - destruct (body_denied lp r e Hm Hg) as (l & Hl & Hb). rewrite Hb.
    exists 0%nat. cbn [snd emits trace take fmap list_fmap].
    rewrite !spawns_app, (spawns_log l Hl). cbn. rewrite !app_nil_r.
    reflexivity.
Qed.

(** C5, as the code has it. The handler goes through the loaded plugins
    in order. A plugin that does not match is passed over. For a match
    the admission check is applied to the publisher pool of its key:
    when it denies, nothing is spawned and the handler returns at once,
    whatever loaded plugins come after; when it grants, a handle is built
    for the path of the plugin and started, the loop going on with the
    later plugins if the start succeeds and the handler panicking with
    the error of the start if it fails. Hence the handles built are those
    of the first [k] matches, in order, for some [k]. *)
Theorem publisher_event_stops_at_first_denial
    (lp : loadedPlugin) (post : list loadedPlugin) (r : t) (e : env) :
  (~ wanted lp -> loop (lp :: post) (r, e) = loop post (r, emits (seen lp) e))
  /\ (wanted lp -> granted r lp = false ->
      exists l, is_log l
        /\ loop (lp :: post) (r, e) = (Done (), (r, emits (seen lp ++ [l]) e)))
  /\ (wanted lp -> granted r lp = true ->
      exists l, is_log l
        /\ let args := GenerateArgs pm (Path lp) in
           let res :=
             startPlugin (fst (NewExecutablePlugin args (Path lp)))
               (r, emits (seen lp ++ [l; ENewExecutablePlugin args (Path lp)]) e) in
           loop (lp :: post) (r, e)
           = match fst res with
             | inl _ => loop post (snd res)
             | inr err =>
                 (Panicked err,
                  (fst (snd res), emit (EPrintln err) (snd (snd res))))
             end)
  /\ (exists k,
        spawns (trace (snd (snd (loop (lp :: post) (r, e)))))
        = spawns (trace e) ++ (Path <$> take k (filter wanted (lp :: post))))
  /\ (pluginManager r = Some pm ->
      HandleGomitEvent newAvailablePlugin NewExecutablePlugin
        (control_event.PublisherSubscriptionEvent PluginName PluginVersion)
        (r, e)
      = loop (LoadedPlugins pm)
          (r, emit (ELog LDebug "runner.events"
                      "handling publisher subscription event (%v:v%v)"
                      [AStr PluginName; AInt PluginVersion]) e)).
Proof.
  split; [|split; [|split; [|split]]].
  - intros Hn. cbn [publisherLoop]. rewrite body_other by exact Hn.
    reflexivity.
  - intros Hm Hg. destruct (body_denied lp r e Hm Hg) as (l & Hl & Hb).
    exists l. split; [exact Hl|]. cbn [publisherLoop]. rewrite Hb.
    reflexivity.
  - intros Hm Hg. destruct (body_granted lp r e Hm Hg) as (l & Hl & Hb).
    exists l. split; [exact Hl|]. cbn zeta in *. cbn [publisherLoop].
    rewrite Hb. destruct (fst (runner.startPlugin _ _ _)); reflexivity.
  - apply (loop_spawns (lp :: post) (r, e)).
  - intros Hpm. unfold HandleGomitEvent. rewrite Hpm. reflexivity.
Qed.

End PublisherEvent.

(** ** The error returned with a handle *)

Section NilableEvent.

Import runner.

Variable newAvailablePlugin :
  plugin.Response -> Z -> gomit.Emitter -> availablePlugin.t + error.
Variable NewExecutablePlugin :
  list string -> string -> option plugin.executablePlugin * option error.
Variable pm : managesPlugins.
Variable PluginName : string.
Variable PluginVersion : Z.

Local Abbreviation nstart := (nilable.startPlugin newAvailablePlugin).
Local Abbreviation nbody :=
  (nilable.publisherBody newAvailablePlugin NewExecutablePlugin pm
     PluginName PluginVersion).
Local Abbreviation nloop :=
  (nilable.publisherLoop newAvailablePlugin NewExecutablePlugin pm
     PluginName PluginVersion).
Local Abbreviation wanted := (matches PluginName PluginVersion).
Local Abbreviation seen := (examined PluginName PluginVersion).

Lemma nbody_other (lp : loadedPlugin) (r : t) (e : env) :
  ~ wanted lp -> nbody lp (r, e) = (Continue, (r, emits (seen lp) e)).
Proof.
  intros Hn. unfold nilable.publisherBody.
  rewrite bool_decide_eq_false_2 by exact Hn. reflexivity.
Qed.

(** A match that is granted: whatever came with the handle, the handle
    is what [startPlugin] is called on, and the body ends as that call
    does. *)
Lemma nbody_granted (lp : loadedPlugin) (r : t) (e : env) :
  wanted lp -> granted r lp = true ->
  exists l, is_log l
    /\ let args := GenerateArgs pm (Path lp) in
       let res :=
         nstart (fst (NewExecutablePlugin args (Path lp)))
           (r, emits (seen lp ++ [l; ENewExecutablePlugin args (Path lp)]) e) in
       nbody lp (r, e)
       = match fst res with
         | Done (inl _) => (Continue, snd res)
         | Done (inr err) =>
             (Panics err, (fst (snd res), emit (EPrintln err) (snd (snd res))))
         | Panicked v => (Panics v, snd res)
         end.
Proof.
  intros Hm Hg. unfold nilable.publisherBody, granted in *.
  rewrite bool_decide_eq_true_2 by exact Hm.
  destruct (checkPool_log
              (availablePlugins.GetPluginPool
                 (availablePlugins.Publishers (availablePlugins r)) (Key lp))
              (Key lp)) as (l & Hl & Hlog).
  destruct (checkPool _ (Key lp)) as [ok logs]. cbn [fst snd] in *.
  subst ok logs. cbn [negb]. exists l. split; [exact Hlog|]. cbn zeta.
  destruct (NewExecutablePlugin _ (Path lp)) as [h err]. cbn [fst].
  rewrite emit_emits, !emits_emits. unfold examined. cbn [app].
  destruct (nilable.startPlugin _ h _) as [[[ap|err']|v] s']; reflexivity.
Qed.

(** Loaded plugins that do not match are passed over. *)
Lemma nloop_skip (pre : list loadedPlugin) :
  forall (rest : list loadedPlugin) (r : t) (e : env),
    Forall (fun lp => ~ wanted lp) pre ->
    nloop (pre ++ rest) (r, e)
    = nloop rest (r, emits (concat (seen <$> pre)) e).
Proof.
  induction pre as [|lp pre IH]; intros rest r e Hall;
    cbn [app nilable.publisherLoop].
  - cbn. rewrite emits_nil. reflexivity.
  - inversion Hall as [|? ? Hlp Hpre]; subst.
    rewrite nbody_other by exact Hlp. rewrite (IH _ _ _ Hpre), emits_emits.
    reflexivity.
Qed.

(** The error returned with a handle does not reach the body of the
    loop. *)
Lemma nbody_drops_error (lp : loadedPlugin) (s : t * env) :
  nbody lp s
  = nilable.publisherBody newAvailablePlugin
      (nilable.drop_error NewExecutablePlugin) pm PluginName PluginVersion lp s.
Proof.
  destruct s as [r e]. unfold nilable.publisherBody, nilable.drop_error.
  destruct (NewExecutablePlugin _ (Path lp)) as [h err]. reflexivity.
Qed.

Lemma nloop_drops_error (lps : list loadedPlugin) : forall s : t * env,
  nloop lps s
  = nilable.publisherLoop newAvailablePlugin
      (nilable.drop_error NewExecutablePlugin) pm PluginName PluginVersion lps s.
Proof.
  induction lps as [|lp lps IH]; intros s; cbn [nilable.publisherLoop];
    [reflexivity|].
  rewrite <- nbody_drops_error.
  destruct (nbody lp s) as [[| |v] s']; [apply IH|reflexivity|reflexivity].
Qed.

End NilableEvent.

Section NilableLift.

Import runner.

Variable newAvailablePlugin :
  plugin.Response -> Z -> gomit.Emitter -> availablePlugin.t + error.
Variable NewExecutablePlugin :
  list string -> string -> plugin.executablePlugin * option error.

Lemma publisherBody_lift (pm : managesPlugins) (name : string) (ver : Z)
    (lp : loadedPlugin) (s : t * env) :
  nilable.publisherBody newAvailablePlugin (nilable.lift NewExecutablePlugin)
    pm name ver lp s
  = publisherBody newAvailablePlugin NewExecutablePlugin pm name ver lp s.
Proof.
  destruct s as [r e].
  unfold nilable.publisherBody, publisherBody, nilable.lift,
    nilable.startPlugin.
  destruct (bool_decide _); [|reflexivity].
  destruct (checkPool _ (Key lp)) as [[|] logs]; cbn [negb]; [|reflexivity].
  destruct (NewExecutablePlugin _ (Path lp)) as [h err]. cbn [fst snd].
  destruct (runner.startPlugin _ h _) as [[ap|err'] s']; reflexivity.
Qed.

Lemma publisherLoop_lift (pm : managesPlugins) (name : string) (ver : Z)
    (lps : list loadedPlugin) : forall s : t * env,
  nilable.publisherLoop newAvailablePlugin (nilable.lift NewExecutablePlugin)
    pm name ver lps s
  = publisherLoop newAvailablePlugin NewExecutablePlugin pm name ver lps s.
Proof.
  induction lps as [|lp lps IH]; intros s;
    cbn [nilable.publisherLoop publisherLoop]; [reflexivity|].
  rewrite publisherBody_lift.
  destruct (publisherBody _ _ pm name ver lp s) as [[| |v] s'];
    [apply IH|reflexivity|reflexivity].
Qed.

(** On a transport that never returns the nil handle the two embeddings
    of the handler are one. *)
Lemma HandleGomitEvent_lift (body : control_event.Body) (s : t * env) :
  nilable.HandleGomitEvent newAvailablePlugin
    (nilable.lift NewExecutablePlugin) body s
  = HandleGomitEvent newAvailablePlugin NewExecutablePlugin body s.
Proof.
  destruct s as [r e]. destruct body as [name ver|ns ver|];
    unfold nilable.HandleGomitEvent, HandleGomitEvent; [| |reflexivity].
  - destruct (pluginManager r) as [pm|]; [|reflexivity].
    apply publisherLoop_lift.
  - destruct (metricCatalog r) as [mc|]; [|reflexivity].
    destruct (Get mc ns ver) as [mt|err]; [|reflexivity].
    destruct (checkPool _ (Key (Plugin mt))) as [[|] logs]; cbn [negb];
      [|reflexivity].
    destruct (pluginManager r) as [pm|]; [|reflexivity].
    unfold nilable.lift, nilable.startPlugin.
    destruct (NewExecutablePlugin _ (Path (Plugin mt))) as [h oerr].
    cbn [fst snd].
    destruct (runner.startPlugin _ h _) as [[ap|err'] s']; reflexivity.
Qed.

End NilableLift.

(** C10: in the publisher branch the error returned with the handle is
    never looked at. The handler does what it does when the transport
    returns the same handles and no error. When the first matching
    loaded plugin is granted and its handle comes with an error, the
    handler calls [startPlugin] on that handle, nil or not, and goes on
    as that call ends: to the later loaded plugins if it returns an
    instance, panicking with the error of the start if it returns one,
    and panicking with the nil dereference if the handle is nil; the
    error of the construction is neither printed nor raised. On the
    transports that never return nil this handler is
    [runner.HandleGomitEvent]. *)
Theorem construction_error_never_inspected
    (newAvailablePlugin :
       plugin.Response -> Z -> gomit.Emitter -> availablePlugin.t + error)
    (NewExecutablePlugin :
       list string -> string -> option plugin.executablePlugin * option error)
    (PluginName : string) (PluginVersion : Z) :
  (forall s,
      nilable.HandleGomitEvent newAvailablePlugin NewExecutablePlugin
        (control_event.PublisherSubscriptionEvent PluginName PluginVersion) s
      = nilable.HandleGomitEvent newAvailablePlugin
          (nilable.drop_error NewExecutablePlugin)
          (control_event.PublisherSubscriptionEvent PluginName PluginVersion) s)
  /\ (forall pm r e pre lp post p err,
        runner.pluginManager r = Some pm ->
        runner.LoadedPlugins pm = pre ++ lp :: post ->
        Forall (fun lp' => ~ runner.matches PluginName PluginVersion lp') pre ->
        runner.matches PluginName PluginVersion lp ->
        runner.granted r lp = true ->
        NewExecutablePlugin (runner.GenerateArgs pm (runner.Path lp))
          (runner.Path lp) = (p, Some err) ->
        exists logs, Forall runner.is_log logs
          /\ let e1 :=
               emits (logs
                      ++ [ENewExecutablePlugin
                            (runner.GenerateArgs pm (runner.Path lp))
                            (runner.Path lp)]) e in
             let res := nilable.startPlugin newAvailablePlugin p (r, e1) in
             nilable.HandleGomitEvent newAvailablePlugin NewExecutablePlugin
               (control_event.PublisherSubscriptionEvent
                  PluginName PluginVersion) (r, e)
             = match fst res with
               | Done (inl _) =>
                   nilable.publisherLoop newAvailablePlugin
                     NewExecutablePlugin pm PluginName PluginVersion post
                     (snd res)
               | Done (inr err') =>
                   (Panicked err',
                    (fst (snd res), emit (EPrintln err') (snd (snd res))))
               | Panicked v => (Panicked v, snd res)
               end
          /\ (p = None ->
              nilable.HandleGomitEvent newAvailablePlugin NewExecutablePlugin
                (control_event.PublisherSubscriptionEvent
                   PluginName PluginVersion) (r, e)
              = (Panicked nil_deref_msg, (r, e1))))
  /\ (forall NewExecutablePlugin' body s,
        nilable.HandleGomitEvent newAvailablePlugin
          (nilable.lift NewExecutablePlugin') body s
        = runner.HandleGomitEvent newAvailablePlugin NewExecutablePlugin'
            body s).
Proof.
  split; [|split].
  - intros [r e]. unfold nilable.HandleGomitEvent.
    destruct (runner.pluginManager r) as [pm|]; [|reflexivity].
    apply nloop_drops_error.
  - intros pm r e pre lp post p err Hpm Hlps Hpre Hm Hg HN.
    destruct (nbody_granted newAvailablePlugin NewExecutablePlugin pm
                PluginName PluginVersion lp r
                (emits (ELog LDebug "runner.events"
                          "handling publisher subscription event (%v:v%v)"
                          [AStr PluginName; AInt PluginVersion]
                        :: concat (runner.examined PluginName PluginVersion
                                     <$> pre)) e)
                Hm Hg) as (l & Hl & Hb).
    cbn zeta in Hb. rewrite HN in Hb. cbn [fst] in Hb.
    rewrite emits_emits in Hb.
    exists ((ELog LDebug "runner.events"
               "handling publisher subscription event (%v:v%v)"
               [AStr PluginName; AInt PluginVersion]
             :: concat (runner.examined PluginName PluginVersion <$> pre))
            ++ runner.examined PluginName PluginVersion lp ++ [l]).
    split.
    { apply Forall_app. split.
      - constructor; [unfold runner.is_log; eauto|].
        apply Forall_concat, Forall_fmap, Forall_forall. intros lp' _.
        cbn. repeat constructor; unfold runner.is_log; eauto.
      - apply Forall_app. split; [|repeat constructor; exact Hl].
        repeat constructor; unfold runner.is_log; eauto. }
    cbn zeta.
    assert (Heq : forall X : list event,
               ((ELog LDebug "runner.events"
                   "handling publisher subscription event (%v:v%v)"
                   [AStr PluginName; AInt PluginVersion]
                 :: concat (runner.examined PluginName PluginVersion <$> pre))
                ++ runner.examined PluginName PluginVersion lp ++ [l]) ++ X
               = (ELog LDebug "runner.events"
                    "handling publisher subscription event (%v:v%v)"
                    [AStr PluginName; AInt PluginVersion]
                  :: concat (runner.examined PluginName PluginVersion <$> pre))
                 ++ runner.examined PluginName PluginVersion lp ++ l :: X).
    { intros X. rewrite <- !app_assoc. reflexivity. }
    rewrite Heq. clear Heq.
    assert (HH : nilable.HandleGomitEvent newAvailablePlugin
                   NewExecutablePlugin
                   (control_event.PublisherSubscriptionEvent
                      PluginName PluginVersion) (r, e)
                 = match
                     nilable.publisherBody newAvailablePlugin
                       NewExecutablePlugin pm PluginName PluginVersion lp
                       (r, emits (ELog LDebug "runner.events"
                                    "handling publisher subscription event (%v:v%v)"
                                    [AStr PluginName; AInt PluginVersion]
                                  :: concat (runner.examined PluginName
                                               PluginVersion <$> pre)) e)
                   with
                   | (runner.Continue, s') =>
                       nilable.publisherLoop newAvailablePlugin
                         NewExecutablePlugin pm PluginName PluginVersion post s'
                   | (runner.Returned, s') => (Done (), s')
                   | (runner.Panics v, s') => (Panicked v, s')
                   end).
    { unfold nilable.HandleGomitEvent. rewrite Hpm, Hlps.
      rewrite (nloop_skip newAvailablePlugin NewExecutablePlugin pm
                 PluginName PluginVersion pre _ _ _ Hpre).
      rewrite emit_emits, emits_emits. reflexivity. }
    rewrite HH, Hb. clear HH Hb.
    split.
    + destruct (nilable.startPlugin _ p _) as [[[ap|err']|v] s']; reflexivity.
    + intros ->. reflexivity.
  - intros NEP body s. apply HandleGomitEvent_lift.
Qed.

Lemma publisher_event_stops_at_first_denial_witness :
  exists l, runner.is_log l
    /\ runner.publisherLoop Samples.newAvailablePlugin Samples.all_time_out
         Samples.manager "bar" 2 [Samples.bar_a; Samples.bar_b]
         (Samples.with_manager Samples.full_registry, env0)
       = (Done (),
          (Samples.with_manager Samples.full_registry,
           emits (runner.examined "bar" 2 Samples.bar_a ++ [l]) env0)).
Proof.
  apply (proj1 (proj2 (publisher_event_stops_at_first_denial
                         Samples.newAvailablePlugin Samples.all_time_out
                         Samples.manager "bar" 2 Samples.bar_a [Samples.bar_b]
                         (Samples.with_manager Samples.full_registry) env0))).
  - repeat split.
  - vm_compute. reflexivity.
Defined.

(** C5 as stated fails. Both loaded plugins match the event. With the
    pool full, the handler returns at the first of them: the trace has
    no entry for the second, to which no admission check is applied.
    With an empty registry and a transport whose handshake times out, the
    handler panics at the first: no handle is built for the second, which
    admission would grant. *)
Lemma publisher_event_skips_later_matches :
  filter (runner.matches "bar" 2) (runner.LoadedPlugins Samples.manager)
  = [Samples.bar_a; Samples.bar_b]
  /\ fst (runner.HandleGomitEvent Samples.newAvailablePlugin
            Samples.all_time_out
            (control_event.PublisherSubscriptionEvent "bar" 2)
            (Samples.with_manager Samples.full_registry, env0))
     = Done ()
  /\ trace (snd (snd (runner.HandleGomitEvent Samples.newAvailablePlugin
                        Samples.all_time_out
                        (control_event.PublisherSubscriptionEvent "bar" 2)
                        (Samples.with_manager Samples.full_registry, env0))))
     = [ELog LDebug "runner.events"
          "handling publisher subscription event (%v:v%v)"
          [AStr "bar"; AInt 2];
        ELog LDebug "runner.events"
          "subscription request name: %v version: %v" [AStr "bar"; AInt 2];
        ELog LDebug "runner.events"
          "loaded plugin name: %v version: %v type: %v"
          [AStr "bar"; AInt 2; AStr "publisher"];
        ELog LDebug "runner.events"
          "(%s) has %d available plugin running (need %d)"
          [AStr "bar:2"; AInt 3; AInt 3]]
  /\ fst (runner.HandleGomitEvent Samples.newAvailablePlugin
            Samples.all_time_out
            (control_event.PublisherSubscriptionEvent "bar" 2)
            (Samples.with_manager availablePlugins.new, env0))
     = Panicked "error while waiting for response: timeout"
  /\ runner.spawns
       (trace (snd (snd (runner.HandleGomitEvent Samples.newAvailablePlugin
                           Samples.all_time_out
                           (control_event.PublisherSubscriptionEvent "bar" 2)
                           (Samples.with_manager availablePlugins.new, env0)))))
     = ["/opt/bar-a"]
  /\ runner.granted
       (fst (snd (runner.HandleGomitEvent Samples.newAvailablePlugin
                    Samples.all_time_out
                    (control_event.PublisherSubscriptionEvent "bar" 2)
                    (Samples.with_manager availablePlugins.new, env0))))
       Samples.bar_b
     = true.
Proof. repeat split; vm_compute; reflexivity. Qed.

Lemma construction_error_never_inspected_witness :
  exists logs, Forall runner.is_log logs
    /\ nilable.HandleGomitEvent Samples.newAvailablePlugin MoreSamples.nowhere
         (control_event.PublisherSubscriptionEvent "bar" 2)
         (Samples.with_manager availablePlugins.new, env0)
       = (Panicked nil_deref_msg,
          (Samples.with_manager availablePlugins.new,
           emits (logs ++ [ENewExecutablePlugin ["/opt/bar-a"] "/opt/bar-a"])
             env0)).
Proof.
  destruct (proj1 (proj2 (construction_error_never_inspected
                            Samples.newAvailablePlugin MoreSamples.nowhere
                            "bar" 2))
              Samples.manager (Samples.with_manager availablePlugins.new) env0
              [] Samples.bar_a [Samples.bar_b] None
              "no such file or directory"
              eq_refl eq_refl ltac:(constructor) ltac:(repeat split)
              ltac:(vm_compute; reflexivity) eq_refl)
    as (logs & Hlogs & _ & Hnil).
  exists logs. split; [exact Hlogs|]. exact (Hnil eq_refl).
Defined.

(** A handle that is not nil and comes with an error is started as well:
    the handler panics with the error of the start, and the error of the
    construction appears nowhere in the trace. *)
Example construction_error_then_start_error :
  let s :=
    nilable.HandleGomitEvent Samples.newAvailablePlugin
      (nilable.lift Samples.not_found)
      (control_event.PublisherSubscriptionEvent "bar" 2)
      (Samples.with_manager availablePlugins.new, env0) in
  fst s = Panicked "error while starting plugin: exec format error"
  /\ EStart ∈ trace (snd (snd s))
  /\ EPrintln "no such file or directory" ∉ trace (snd (snd s)).
Proof.
  vm_compute. split; [reflexivity|]. split.
  - do 5 apply list_elem_of_further. apply list_elem_of_here.
  - intros H. repeat (apply elem_of_cons in H as [H|H]; [discriminate H|]).
    apply not_elem_of_nil in H. exact H.
Qed.

(** ** Two runs of the handler *)

(** With an empty registry and a transport whose processes start, shake
    hands and answer the ping, the event for bar, version 2, starts one
    instance per loaded copy, with the identities 1 and 2. *)
Example publisher_event_starts_both :
  let s :=
    runner.HandleGomitEvent Samples.newAvailablePlugin
      (fun _ _ => (Samples.healthy "bar:2", None))
      (control_event.PublisherSubscriptionEvent "bar" 2)
      (Samples.with_manager availablePlugins.new, env0) in
  fst s = Done ()
  /\ availablePlugins.Table (runner.availablePlugins (fst (snd s)))
     = [Samples.instance 1; Samples.instance 2]
  /\ runner.spawns (trace (snd (snd s))) = ["/opt/bar-a"; "/opt/bar-b"].
Proof. vm_compute. repeat split. Qed.

(** With the pool full, the same event spawns nothing. *)
Example publisher_event_pool_full :
  let s :=
    runner.HandleGomitEvent Samples.newAvailablePlugin
      (fun _ _ => (Samples.healthy "bar:2", None))
      (control_event.PublisherSubscriptionEvent "bar" 2)
      (Samples.with_manager Samples.full_registry, env0) in
  fst s = Done ()
  /\ availablePlugins.Table (runner.availablePlugins (fst (snd s)))
     = [Samples.instance 1; Samples.instance 2; Samples.instance 3]
  /\ runner.spawns (trace (snd (snd s))) = [].
Proof. vm_compute. repeat split. Qed.

(** * Further properties *)

(** ** The identity allocator *)

Section IdCounterMore.

Local Open Scope Z_scope.

Lemma wrap_eq_mod (x y : Z) :
  wrap x = wrap y -> (y - x) `mod` 2 ^ 64 = 0.
Proof.
  unfold wrap. intros H.
  assert (Hm : (x + 2 ^ 63) `mod` 2 ^ 64 = (y + 2 ^ 63) `mod` 2 ^ 64) by lia.
  replace (y - x) with ((y + 2 ^ 63) - (x + 2 ^ 63)) by lia.
  rewrite Zminus_mod, Hm, Z.sub_diag. reflexivity.
Qed.

(** X1: among up to 2^64 successive calls of [Next], from a counter in
    any state, no two return the same value: identities stay unique
    even where the counter wraps around. *)
Theorem Next_values_distinct (n : nat) (i : idCounter.t) (j k : nat) (a b : Z) :
  Z.of_nat n <= 2 ^ 64 ->
  (j < k)%nat ->
  fst (idCounter.calls n i) !! j = Some a ->
  fst (idCounter.calls n i) !! k = Some b ->
  a <> b.
Proof.
  intros Hn Hjk Ha Hb.
  assert (Hk : (k < n)%nat).
  { rewrite <- (calls_length n i). eapply lookup_lt_Some; eauto. }
  rewrite calls_lookup in Ha, Hb by lia.
  injection Ha as <-. injection Hb as <-.
  intros Heq. apply wrap_eq_mod in Heq.
  rewrite Z.mod_small in Heq by lia. lia.
Qed.

Lemma Next_values_distinct_witness :
  fst (idCounter.calls 3 (idCounter.mk MaxInt)) !! 0%nat = Some MinInt
  /\ fst (idCounter.calls 3 (idCounter.mk MaxInt)) !! 2%nat
     = Some (-9223372036854775806)
  /\ MinInt <> -9223372036854775806.
Proof.
  split; [reflexivity|]. split; [reflexivity|].
  apply (Next_values_distinct 3 (idCounter.mk MaxInt) 0 2);
    [lia|lia|reflexivity|reflexivity].
Defined.

End IdCounterMore.

(** ** The loop of the monitor *)

Section MonitorMore.

Variable aps : availablePlugins.t.

Lemma sweep_checks_running : Forall (checks_running aps) (monitor.sweep aps).
Proof.
  apply Forall_forall. intros ev Hev. unfold monitor.sweep in Hev.
  apply list_elem_of_fmap in Hev as (ap & -> & Hap).
  apply list_elem_of_filter in Hap as [Hrun Hin].
  exists ap. auto.
Qed.

Lemma step_dispatches (s s' : monitor.t * env) :
  monitor.step aps s s' ->
  exists tr, trace (snd s') = trace (snd s) ++ tr
             /\ Forall (checks_running aps) tr.
Proof.
  intros H. destruct H; cbn [snd trace].
  - exists []. rewrite app_nil_r. split; [reflexivity|constructor].
  - exists (monitor.sweep aps). split; [reflexivity|apply sweep_checks_running].
  - exists []. rewrite app_nil_r. split; [reflexivity|constructor].
Qed.

(** X2: whatever the goroutines of the monitor do, all they add to the
    trace are health checks, each for an entry of the registry that is
    in the running state: a stopped or disabled instance is never
    probed. *)
Theorem loop_checks_only_running (s s' : monitor.t * env) :
  monitor.steps aps s s' ->
  exists tr, trace (snd s') = trace (snd s) ++ tr
             /\ Forall (checks_running aps) tr.
Proof.
  induction 1 as [s|s1 s2 s3 H12 _ IH].
  - exists []. rewrite app_nil_r. split; [reflexivity|constructor].
  - destruct (step_dispatches _ _ H12) as (tr1 & Ht1 & Hf1).
    destruct IH as (tr2 & Ht2 & Hf2).
    exists (tr1 ++ tr2). rewrite Ht2, Ht1, app_assoc.
    split; [reflexivity|]. apply Forall_app. auto.
Qed.

Lemma step_not_exited (s s' : monitor.t * env) :
  monitor.step aps s s' -> ~ all_exited (snd s).
Proof.
  intros H Hall. unfold all_exited in Hall.
  destruct H as [m e i Hi|m e i q Hi|m e i c Hi _]; cbn [snd] in Hall;
    (eapply Forall_lookup_1 in Hall; [|exact Hi]); discriminate Hall.
Qed.

(** X3: after [Start] and [Stop] the goroutine of the monitor can leave
    its loop without one more sweep, the state being [MonitorStopped];
    and once every goroutine has returned, nothing happens any more: no
    health check is dispatched by a monitor whose loop has ended. *)
Theorem loop_ends_after_Stop (m : monitor.t) (e : env) :
  all_exited e ->
  (exists s',
      monitor.steps aps
        (snd (monitor.exec aps [monitor.OpStart; monitor.OpStop] (m, e))) s'
      /\ all_exited (snd s')
      /\ monitor.State (fst s') = monitor.MonitorStopped
      /\ trace (snd s') = trace e ++ [ENewTicker monitor.DefaultMonitorDuration])
  /\ (forall s s',
        all_exited (snd s) -> monitor.steps aps s s' -> s' = s).
Proof.
  intros Hall. split.
  - assert (HS : monitor.exec aps [monitor.OpStart; monitor.OpStop] (m, e)
                 = (Done (),
                    (monitor.mk monitor.MonitorStopped (Some (length (chans e))),
                     mkEnv (<[length (chans e) := true]> (chans e ++ [false]))
                       (goroutines e ++ [GSelect])
                       (trace e ++ [ENewTicker monitor.DefaultMonitorDuration])))).
    { cbn [monitor.exec monitor.call fst snd].
      unfold monitor.Start. cbn [emit chans goroutines trace].
      rewrite (Stop_open _ _ (length (chans e))); [reflexivity|reflexivity|].
      cbn [snd chans]. rewrite lookup_app_r by lia.
      rewrite Nat.sub_diag. reflexivity. }
    rewrite HS. clear HS. cbn [snd].
    eexists. split.
    + eapply monitor.steps_step.
      { apply (monitor.step_enter aps _ _ (length (goroutines e))).
        cbn [goroutines]. rewrite lookup_app_r by lia.
        rewrite Nat.sub_diag. reflexivity. }
      eapply monitor.steps_step; [|apply monitor.steps_refl].
      eapply (monitor.step_quit aps _ _ (length (goroutines e))
                (length (chans e))).
      * cbn [goroutines monitor.quit].
        apply list_lookup_insert_eq. rewrite length_app. cbn. lia.
      * cbn [chans]. apply list_lookup_insert_eq.
        rewrite length_app. cbn. lia.
    + cbn [fst snd goroutines trace monitor.State monitor.quit].
      split; [|split; reflexivity].
      unfold all_exited. cbn [goroutines].
      rewrite list_insert_insert_eq.
      rewrite insert_app_r_alt by lia. rewrite Nat.sub_diag. cbn.
      apply Forall_app. split; [exact Hall|repeat constructor].
  - intros s s' Hs Hsteps. destruct Hsteps as [s|s1 s2 s3 H12 _];
      [reflexivity|].
    exfalso. exact (step_not_exited _ _ H12 Hs).
Qed.

(** X4: a monitor can be started and stopped again and again: however
    its goroutines are scheduled, any number of rounds of [Start]
    followed by [Stop] runs without a panic and, if there was a round,
    ends in the state [MonitorStopped]. *)
Theorem Start_Stop_rounds (n : nat) :
  forall (s : monitor.t * env) (r : outcome unit) (s' : monitor.t * env),
    monitor.run aps (rounds n) s r s' ->
    r = Done ()
    /\ ((0 < n)%nat -> monitor.State (fst s') = monitor.MonitorStopped).
Proof.
  induction n as [|n IH]; intros s r s' H; cbn [rounds] in H.
  - inversion H; subst. split; [reflexivity|lia].
  - destruct (run_Start_Stop aps _ _ _ _ H) as (s2 & s3 & H2 & H3 & Hd & Hr).
    destruct n as [|n].
    + cbn [rounds] in Hr. inversion Hr; subst.
      destruct (run_Start_Stop_inv aps s s2 s3 _ s' H2 H3
                  (monitor.steps_refl _ _) ltac:(eassumption)) as (_ & Hs & _).
      auto.
    + destruct (IH _ _ _ Hr) as [Hr' Hs']. split; [exact Hr'|].
      intros _. apply Hs'. lia.
Qed.

(** A channel that [quit] does not refer to stays open, whatever the
    goroutines do and whatever call is made. *)
Lemma steps_keep_orphan (c : nat) (s s' : monitor.t * env) :
  monitor.steps aps s s' ->
  chans (snd s) !! c = Some false /\ monitor.quit (fst s) <> Some c ->
  chans (snd s') !! c = Some false /\ monitor.quit (fst s') <> Some c.
Proof.
  intros H [Hc Hq]. destruct (steps_frame aps _ _ H) as (Hq' & Hc' & _).
  rewrite Hq', Hc'. auto.
Qed.

Lemma call_keeps_orphan (c : nat) (o : monitor.op) (s s' : monitor.t * env)
    (r : outcome unit) :
  monitor.call aps o s = (r, s') ->
  chans (snd s) !! c = Some false /\ monitor.quit (fst s) <> Some c ->
  chans (snd s') !! c = Some false /\ monitor.quit (fst s') <> Some c.
Proof.
  intros Hcall [Hc Hq]. destruct s as [m e]. cbn [fst snd] in *.
  assert (Hlt : (c < length (chans e))%nat) by (eapply lookup_lt_Some; eauto).
  destruct o; cbn [monitor.call fst snd] in Hcall.
  - inversion Hcall; subst. cbn. split.
    + rewrite lookup_app_l by exact Hlt. exact Hc.
    + intros Heq. injection Heq as Heq. lia.
  - unfold monitor.Stop, close in Hcall.
    destruct (monitor.quit m) as [i|] eqn:Ei;
      [|inversion Hcall; subst; cbn; rewrite Ei; auto].
    destruct (chans e !! i) as [[|]|] eqn:Eci;
      inversion Hcall; subst; cbn [fst snd chans monitor.quit];
      try (rewrite Ei; auto).
    split; [|exact Hq].
    rewrite list_lookup_insert_ne by congruence. exact Hc.
Qed.

Lemma run_keeps_orphan (c : nat) (ops : list monitor.op)
    (s s' : monitor.t * env) (r : outcome unit) :
  monitor.run aps ops s r s' ->
  chans (snd s) !! c = Some false /\ monitor.quit (fst s) <> Some c ->
  chans (snd s') !! c = Some false /\ monitor.quit (fst s') <> Some c.
Proof.
  induction 1 as [s s' Hs|o ops s s1 s2 v Hs Hc|o ops s s1 s2 r s' Hs Hc _ IH];
    intros Hinv.
  - eapply steps_keep_orphan; eauto.
  - eapply call_keeps_orphan; [exact Hc|]. eapply steps_keep_orphan; eauto.
  - apply IH. eapply call_keeps_orphan; [exact Hc|].
    eapply steps_keep_orphan; eauto.
Qed.

Ltac inv_call H :=
  inversion H; subst; clear H;
  repeat match goal with
         | E : monitor.call _ monitor.OpStart _ = _ |- _ =>
             cbn [monitor.call] in E; inversion E; subst; clear E
         end.

(** X5: [Start] does not look at the state of the monitor. Called a
    second time without a [Stop] in between, it replaces the [quit]
    channel, and the channel made by the first call is then never closed,
    whatever calls follow: a goroutine blocked on it is not told to
    quit. *)
Theorem second_Start_orphans_channel (m : monitor.t) (e : env)
    (ops : list monitor.op) (r : outcome unit) (s' : monitor.t * env) :
  monitor.run aps (monitor.OpStart :: monitor.OpStart :: ops) (m, e) r s' ->
  chans (snd s') !! length (chans e) = Some false
  /\ monitor.quit (fst s') <> Some (length (chans e)).
Proof.
  intros H. inv_call H.
  match goal with H : monitor.run _ (_ :: _) _ _ _ |- _ => inv_call H end.
  match goal with
  | H1 : monitor.steps _ (m, e) ?a,
    H2 : monitor.steps _ (monitor.Start _ _ _) ?b,
    Hr : monitor.run _ ops _ _ _ |- _ =>
      destruct (steps_frame aps _ _ H1) as (_ & Hc1 & _);
      destruct (steps_frame aps _ _ H2) as (_ & Hc2 & _);
      eapply (run_keeps_orphan _ _ _ _ _ Hr)
  end.
  cbn [fst snd chans monitor.quit monitor.Start emit] in *.
  rewrite Hc2, Hc1. split.
  - rewrite lookup_app_l by (rewrite length_app; cbn; lia).
    rewrite lookup_app_r by lia. rewrite Nat.sub_diag. reflexivity.
  - rewrite length_app. cbn. intros Heq. injection Heq as Heq. lia.
Qed.

End MonitorMore.

Lemma loop_checks_only_running_witness :
  exists s',
    monitor.steps Samples.full_registry
      (monitor.Start Samples.full_registry monitor.newMonitor env0) s'
    /\ exists tr,
         trace (snd s') = [ENewTicker monitor.DefaultMonitorDuration] ++ tr
         /\ Forall (checks_running Samples.full_registry) tr.
Proof.
  eexists. split.
  - eapply monitor.steps_step;
      [apply (monitor.step_enter _ _ _ 0%nat); reflexivity|].
    eapply monitor.steps_step;
      [eapply (monitor.step_tick _ _ _ 0%nat); reflexivity|].
    apply monitor.steps_refl.
  - eapply (loop_checks_only_running Samples.full_registry
              (monitor.Start Samples.full_registry monitor.newMonitor env0)).
    eapply monitor.steps_step;
      [apply (monitor.step_enter _ _ _ 0%nat); reflexivity|].
    eapply monitor.steps_step;
      [eapply (monitor.step_tick _ _ _ 0%nat); reflexivity|].
    apply monitor.steps_refl.
Defined.

Lemma loop_ends_after_Stop_witness :
  exists s',
    monitor.steps availablePlugins.new
      (snd (monitor.exec availablePlugins.new
              [monitor.OpStart; monitor.OpStop] (monitor.newMonitor, env0))) s'
    /\ all_exited (snd s')
    /\ monitor.State (fst s') = monitor.MonitorStopped
    /\ trace (snd s') = [ENewTicker monitor.DefaultMonitorDuration].
Proof.
  exact (proj1 (loop_ends_after_Stop availablePlugins.new monitor.newMonitor
                  env0 (Forall_nil_2 _))).
Defined.

Lemma Start_Stop_rounds_witness :
  fst (monitor.exec availablePlugins.new (rounds 2) (monitor.newMonitor, env0))
  = Done ()
  /\ monitor.State
       (fst (snd (monitor.exec availablePlugins.new (rounds 2)
                    (monitor.newMonitor, env0))))
     = monitor.MonitorStopped.
Proof.
  destruct (Start_Stop_rounds availablePlugins.new 2 _ _ _
              (exec_run availablePlugins.new (rounds 2)
                 (monitor.newMonitor, env0))) as [Hr Hs].
  split; [exact Hr|]. apply Hs. lia.
Defined.

Lemma second_Start_orphans_channel_witness :
  chans (snd (snd (monitor.exec availablePlugins.new
                     [monitor.OpStart; monitor.OpStart; monitor.OpStop]
                     (monitor.newMonitor, env0)))) !! 0%nat
  = Some false.
Proof.
  exact (proj1 (second_Start_orphans_channel availablePlugins.new
                  monitor.newMonitor env0 [monitor.OpStop] _ _
                  (exec_run availablePlugins.new
                     [monitor.OpStart; monitor.OpStart; monitor.OpStop]
                     (monitor.newMonitor, env0)))).
Defined.

(** ** Starting, then stopping, the runner *)

Section StartThenStop.

Import runner.

(** X6: when [Start] has returned nil, [Stop] does not panic: it returns
    the errors of the delegates that would not unregister and leaves the
    monitor stopped and the delegates as they were. A second [Stop] then
    panics, closing the closed channel, before any delegate is called
    again. *)
Theorem Start_then_Stop (r : runner.t) (e : env) (s1 : runner.t * env) :
  Start (r, e) = (None, s1) ->
  exists s2,
    Stop s1 = (Done (unregister_errors (delegates r)), s2)
    /\ monitor.State (monitor (fst s2)) = monitor.MonitorStopped
    /\ delegates (fst s2) = delegates r
    /\ trace (snd s2)
       = trace e ++ registrations 0 (length (delegates r))
           ++ [ENewTicker monitor.DefaultMonitorDuration;
               ELog LDebug "runner.start" "started" []]
           ++ unregistrations 0 (length (delegates r))
           ++ [ELog LDebug "runner.stop" "stopped" []]
    /\ Stop s2 = (Panicked closed_close_msg, s2).
Proof.
  intros HS. unfold Start in HS.
  destruct (bool_decide _) in HS; [discriminate HS|].
  destruct (registerAll 0 (delegates r) e) as [[err|] e1] eqn:HR;
    [discriminate HS|].
  assert (He1 : e1 = emits (registrations 0 (length (delegates r))) e).
  { clear HS. revert HR. generalize 0%nat. generalize e.
    induction (delegates r) as [|d ds IH]; intros e0 i HR; cbn [registerAll] in HR.
    - inversion HR. rewrite emits_nil. reflexivity.
    - destruct (gomit.RegisterHandler d HandlerRegistrationName);
        [discriminate HR|].
      rewrite (IH _ _ HR), emit_emits, emits_emits. reflexivity. }
  subst e1. cbn in HS. inversion HS; subst; clear HS.
  unfold Stop. cbn [fst snd monitor set_monitor].
  rewrite (Stop_open _ _ (length (chans e)))
    by (cbn; [reflexivity || (rewrite lookup_app_r by lia;
                               rewrite Nat.sub_diag; reflexivity)]).
  rewrite unregisterAll_collects. cbn [delegates set_monitor].
  eexists. split; [reflexivity|].
  cbn [fst snd monitor set_monitor delegates trace emit emits monitor.State].
  split; [reflexivity|]. split; [reflexivity|].
  split; [rewrite <- !app_assoc; reflexivity|].
  rewrite (Stop_closed _ _ (length (chans e))); [reflexivity|reflexivity|].
  cbn [fst snd chans emit]. apply list_lookup_insert_eq.
  rewrite length_app. cbn. lia.
Qed.

End StartThenStop.

Lemma Start_then_Stop_witness :
  exists s2,
    runner.Stop Samples.started = (Done ["busy"], s2)
    /\ runner.Stop s2 = (Panicked "close of closed channel", s2).
Proof.
  destruct (Start_then_Stop
              (runner.AddDelegates
                 [Samples.accepting; Samples.sticky; Samples.accepting]
                 runner.newRunner)
              env0 Samples.started eq_refl)
    as (s2 & H1 & _ & _ & _ & H5).
  exists s2. split; [exact H1|exact H5].
Defined.

(** ** More on the plugin start sequence *)

Section StartSequenceMore.

Import runner.

Variable newAvailablePlugin :
  plugin.Response -> Z -> gomit.Emitter -> availablePlugin.t + error.

Local Abbreviation startPlugin := (runner.startPlugin newAvailablePlugin).

(** X7: the start sequence takes an identity from the counter exactly
    when the handshake succeeds, before the instance is built and
    pinged: a start that then fails at the construction or at the ping
    has used up its identity all the same. An instance that is returned
    was built with the new value of the counter from the response of the
    handshake, and has answered the ping. *)
Theorem startPlugin_takes_identity
    (p : plugin.executablePlugin) (r : t) (e : env) :
  ((exists resp, handshake_succeeds p resp) ->
     apIdCounter (fst (snd (startPlugin p (r, e))))
     = idCounter.mk (wrap (idCounter.id (apIdCounter r) + 1)))
  /\ ((forall resp, ~ handshake_succeeds p resp) ->
      apIdCounter (fst (snd (startPlugin p (r, e)))) = apIdCounter r)
  /\ (forall ap,
        fst (startPlugin p (r, e)) = inl ap ->
        exists resp,
          handshake_succeeds p resp
          /\ newAvailablePlugin resp
               (idCounter.id (apIdCounter (fst (snd (startPlugin p (r, e))))))
               (emitter r) = inl ap
          /\ plugin.Ping (availablePlugin.Client ap) = None).
Proof.
  unfold handshake_succeeds, runner.startPlugin.
  destruct (plugin.Start p) as [err|] eqn:HS.
  { cbn [fst snd]. split; [intros (resp & Habs & _); discriminate Habs|].
    split; [reflexivity|]. intros ap Habs. discriminate Habs. }
  destruct (plugin.WaitForResponse p handshake_timeout) as [[resp|] [err|]] eqn:HW;
    cbn [fst snd];
    try (split; [intros (resp' & _ & Habs & _); discriminate Habs|];
         split; [reflexivity|]; intros ap Habs; discriminate Habs).
  case_bool_decide as Hst; cbn [fst snd].
  { split; [intros (resp' & _ & Heq & Hok); congruence|].
    split; [reflexivity|]. intros ap Habs. discriminate Habs. }
  assert (Hok : plugin.State resp = plugin.PluginSuccess).
  { destruct (decide (plugin.State resp = plugin.PluginSuccess)); tauto. }
  rewrite Next_value. cbn [emitter set_apIdCounter].
  destruct (newAvailablePlugin resp _ (emitter r)) as [ap|err] eqn:HN.
  2:{ cbn [fst snd apIdCounter].
      split; [reflexivity|]. split; [intros Hno; exfalso; eapply Hno; eauto|].
      intros ap Habs. discriminate Habs. }
  destruct (plugin.Ping (availablePlugin.Client ap)) as [err|] eqn:HP;
    cbn [fst snd apIdCounter set_availablePlugins].
  - split; [reflexivity|]. split; [intros Hno; exfalso; eapply Hno; eauto|].
    intros ap' Habs. discriminate Habs.
  - split; [reflexivity|]. split; [intros Hno; exfalso; eapply Hno; eauto|].
    intros ap' Hap. injection Hap as <-. exists resp. cbn [idCounter.id]. auto.
Qed.

(** The start sequence leaves the delegates, the emitter, the monitor
    and the metric catalog as they were, makes no channel and no
    goroutine, and only appends to the trace. *)
Lemma startPlugin_frame (p : plugin.executablePlugin) (s : t * env) :
  handling_frame s (snd (startPlugin p s)).
Proof.
  destruct s as [r e]. unfold handling_frame, runner.startPlugin.
  destruct (plugin.Start p) as [err|];
    [cbn; repeat split; try reflexivity; eexists; rewrite <- app_assoc; reflexivity|].
  destruct (plugin.WaitForResponse p handshake_timeout) as [[resp|] [err|]];
    try (cbn; repeat split; try reflexivity; eexists;
         rewrite <- app_assoc; reflexivity).
  case_bool_decide;
    [cbn; repeat split; try reflexivity; eexists;
     rewrite <- app_assoc; reflexivity|].
  rewrite Next_value.
  destruct (newAvailablePlugin resp _ _) as [ap|err];
    [|cbn; repeat split; try reflexivity; eexists;
      rewrite <- app_assoc; reflexivity].
  destruct (plugin.Ping (availablePlugin.Client ap));
    cbn; repeat split; try reflexivity; eexists;
    rewrite <- !app_assoc; reflexivity.
Qed.

(** The registry after the start sequence: what it was, or what it was
    with one instance inserted, built from the response of a handshake
    that succeeded. *)
Lemma startPlugin_registry (p : plugin.executablePlugin) (r : t) (e : env) :
  availablePlugins (fst (snd (startPlugin p (r, e)))) = availablePlugins r
  \/ exists resp id ap,
       handshake_succeeds p resp
       /\ newAvailablePlugin resp id (emitter r) = inl ap
       /\ availablePlugins (fst (snd (startPlugin p (r, e))))
          = availablePlugins.Insert ap (availablePlugins r).
Proof.
  unfold handshake_succeeds, runner.startPlugin.
  destruct (plugin.Start p) as [err|] eqn:HS; [left; reflexivity|].
  destruct (plugin.WaitForResponse p handshake_timeout) as [[resp|] [err|]] eqn:HW;
    try (left; reflexivity).
  case_bool_decide as Hst; [left; reflexivity|].
  assert (Hok : plugin.State resp = plugin.PluginSuccess).
  { destruct (decide (plugin.State resp = plugin.PluginSuccess)); tauto. }
  rewrite Next_value. cbn [emitter set_apIdCounter].
  destruct (newAvailablePlugin resp _ (emitter r)) as [ap|err] eqn:HN;
    [|left; reflexivity].
  destruct (plugin.Ping (availablePlugin.Client ap)); [left; reflexivity|].
  right. exists resp, (wrap (idCounter.id (apIdCounter r) + 1)), ap. auto.
Qed.

End StartSequenceMore.

Lemma startPlugin_takes_identity_witness :
  runner.apIdCounter
    (fst (snd (runner.startPlugin Samples.newAvailablePlugin
                 (Samples.unreachable "bar:2") (runner.newRunner, env0))))
  = idCounter.mk 1.
Proof.
  apply (proj1 (startPlugin_takes_identity Samples.newAvailablePlugin
                  (Samples.unreachable "bar:2") runner.newRunner env0)).
  eexists. repeat split.
Defined.

(** ** The metric subscription event *)

Section MetricEvent.

Import runner.

Variable newAvailablePlugin :
  plugin.Response -> Z -> gomit.Emitter -> availablePlugin.t + error.
Variable NewExecutablePlugin :
  list string -> string -> plugin.executablePlugin * option error.

Local Abbreviation startPlugin := (runner.startPlugin newAvailablePlugin).
Local Abbreviation handle :=
  (HandleGomitEvent newAvailablePlugin NewExecutablePlugin).

(** X8: a metric subscription event is dropped, the handler returning
    with the runner as it was and no handle built, when the catalog does
    not resolve the metric (the error is printed), and when admission is
    denied for the collector pool of the plugin that serves it (only log
    entries are written). *)
Theorem metric_event_dropped (r : t) (e : env) (mc : catalogsMetrics)
    (ns : list string) (ver : Z) :
  metricCatalog r = Some mc ->
  (forall err,
      Get mc ns ver = inr err ->
      exists l, is_log l
        /\ handle (control_event.MetricSubscriptionEvent ns ver) (r, e)
           = (Done (), (r, emits [l; EPrintln err] e)))
  /\ (forall mt,
        Get mc ns ver = inl mt ->
        granted_collector r (Plugin mt) = false ->
        exists logs, Forall is_log logs
          /\ handle (control_event.MetricSubscriptionEvent ns ver) (r, e)
             = (Done (), (r, emits logs e))).
Proof.
  intros Hmc. split.
  - intros err HG. unfold HandleGomitEvent. rewrite Hmc, HG.
    eexists. split; [|rewrite !emit_emits, emits_emits; reflexivity].
    unfold is_log. eauto.
  - intros mt HG Hden. unfold HandleGomitEvent, granted_collector in *.
    rewrite Hmc, HG.
    destruct (checkPool_log
                (availablePlugins.GetPluginPool
                   (availablePlugins.Collectors (availablePlugins r))
                   (Key (Plugin mt)))
                (Key (Plugin mt))) as (l & Hl & Hlog).
    destruct (checkPool _ (Key (Plugin mt))) as [ok logs].
    cbn [fst snd] in *. subst ok logs. cbn [negb].
    exists [ELog LDebug "runner.events"
              "handling metric subscription event (%s v%d)"
              [AStr (Join ns "/"); AInt ver];
            ELog LDebug "runner.events" "plugin is (%s) for (%s v%d)"
              [AStr (Key (Plugin mt)); AStr (Join ns "/"); AInt ver];
            l].
    split.
    + repeat constructor; first [exact Hlog|unfold is_log; eauto].
    + rewrite !emit_emits, !emits_emits. reflexivity.
Qed.

(** X9: a metric subscription event that is resolved and granted builds
    one handle, for the path of the plugin that serves the metric. An
    error returned with the handle is logged and printed, and the handle
    is started all the same. The handler returns, with the state the
    start left, when the start succeeds; it panics with the error of the
    start when it fails. *)
Theorem metric_event_starts_one (r : t) (e : env) (mc : catalogsMetrics)
    (pm : managesPlugins) (ns : list string) (ver : Z) (mt : metricType)
    (h : plugin.executablePlugin) (oerr : option error) :
  metricCatalog r = Some mc ->
  pluginManager r = Some pm ->
  Get mc ns ver = inl mt ->
  granted_collector r (Plugin mt) = true ->
  NewExecutablePlugin (GenerateArgs pm (Path (Plugin mt))) (Path (Plugin mt))
  = (h, oerr) ->
  exists logs, Forall is_log logs
    /\ let e1 :=
         emits (logs
                ++ [ENewExecutablePlugin (GenerateArgs pm (Path (Plugin mt)))
                      (Path (Plugin mt))]
                ++ construction_report (Plugin mt) oerr) e in
       let res := startPlugin h (r, e1) in
       handle (control_event.MetricSubscriptionEvent ns ver) (r, e)
       = match fst res with
         | inl _ => (Done (), snd res)
         | inr err =>
             (Panicked err,
              (fst (snd res),
               emit (ELog LDebug "runner:HandleGomitEvent"
                       "Plugin %v (ver %v) start error: %v"
                       [AStr (Name (Plugin mt)); AInt (Version (Plugin mt));
                        AErr err])
                    (snd (snd res))))
         end.
Proof.
  intros Hmc Hpm HG Hok HN. unfold HandleGomitEvent, granted_collector in *.
  rewrite Hmc, HG.
  destruct (checkPool_log
              (availablePlugins.GetPluginPool
                 (availablePlugins.Collectors (availablePlugins r))
                 (Key (Plugin mt)))
              (Key (Plugin mt))) as (l & Hl & Hlog).
  destruct (checkPool _ (Key (Plugin mt))) as [ok logs].
  cbn [fst snd] in *. subst ok logs. cbn [negb]. rewrite Hpm, HN.
  exists [ELog LDebug "runner.events"
            "handling metric subscription event (%s v%d)"
            [AStr (Join ns "/"); AInt ver];
          ELog LDebug "runner.events" "plugin is (%s) for (%s v%d)"
            [AStr (Key (Plugin mt)); AStr (Join ns "/"); AInt ver];
          l].
  split; [repeat constructor; first [exact Hlog|unfold is_log; eauto]|].
  cbn zeta.
  assert (He : forall e0 : env,
             match oerr with
             | Some err =>
                 emits
                   [ELog LDebug "runner:HandleGomitEvent"
                      "Plugin %v (ver %v) error: %v"
                      [AStr (Name (Plugin mt)); AInt (Version (Plugin mt));
                       AErr err];
                    EPrintln err] e0
             | None => e0
             end = emits (construction_report (Plugin mt) oerr) e0).
  { intros e0. destruct oerr; [reflexivity|]. cbn. rewrite emits_nil.
    reflexivity. }
  rewrite He, !emit_emits, !emits_emits. cbn [app].
  destruct (runner.startPlugin _ h _) as [[ap|err] s']; reflexivity.
Qed.

(** The start sequence treats every environment alike: its result and
    the runner it leaves do not depend on the trace so far, to which it
    appends the same events. *)
Lemma startPlugin_env (p : plugin.executablePlugin) (r : t) :
  exists res r' tr, forall e, startPlugin p (r, e) = (res, (r', emits tr e)).
Proof.
  unfold runner.startPlugin.
  destruct (plugin.Start p) as [err|].
  { eexists _, _, [_; _]. intros e0. rewrite !emit_emits, !emits_emits.
    reflexivity. }
  destruct (plugin.WaitForResponse p handshake_timeout) as [[resp|] [err|]];
    try (eexists _, _, [_; _]; intros e0; rewrite !emit_emits, !emits_emits;
         reflexivity).
  case_bool_decide;
    [eexists _, _, [_; _]; intros e0; rewrite !emit_emits, !emits_emits;
     reflexivity|].
  rewrite Next_value.
  destruct (newAvailablePlugin resp _ _) as [ap|err];
    [|eexists _, _, [_; _]; intros e0; rewrite !emit_emits, !emits_emits;
      reflexivity].
  destruct (plugin.Ping (availablePlugin.Client ap)).
  - eexists _, _, [_; _; _]. intros e0. rewrite !emit_emits, !emits_emits.
    reflexivity.
  - eexists _, _, [_; _; _; _]. intros e0. rewrite !emit_emits, !emits_emits.
    reflexivity.
Qed.

(** X10: in the metric branch the error returned with a handle changes
    nothing but the trace: the handler ends the same way, with the same
    runner (registry and identity counter included), as it does when the
    transport builds the same handles and reports no error. *)
Theorem metric_event_error_only_reported (ns : list string) (ver : Z)
    (s : t * env) :
  fst (handle (control_event.MetricSubscriptionEvent ns ver) s)
  = fst (HandleGomitEvent newAvailablePlugin (drop_error NewExecutablePlugin)
           (control_event.MetricSubscriptionEvent ns ver) s)
  /\ fst (snd (handle (control_event.MetricSubscriptionEvent ns ver) s))
     = fst (snd (HandleGomitEvent newAvailablePlugin
                   (drop_error NewExecutablePlugin)
                   (control_event.MetricSubscriptionEvent ns ver) s)).
Proof.
  destruct s as [r e]. unfold HandleGomitEvent, drop_error.
  destruct (metricCatalog r) as [mc|]; [|split; reflexivity].
  destruct (Get mc ns ver) as [mt|err]; [|split; reflexivity].
  destruct (checkPool _ (Key (Plugin mt))) as [[|] logs]; cbn [negb];
    [|split; reflexivity].
  destruct (pluginManager r) as [pm|]; [|split; reflexivity].
  destruct (NewExecutablePlugin _ (Path (Plugin mt))) as [h oerr]. cbn [fst].
  destruct (startPlugin_env h r) as (res & r' & tr & Hs).
  rewrite !Hs. destruct res; split; reflexivity.
Qed.

(** X11: a runner that was not given its collaborators cannot handle
    events. A publisher event panics on the nil plugin manager, a metric
    event on the nil metric catalog, and a metric event that is resolved
    and granted on the nil plugin manager; in each case the runner is
    left as it was and nothing is spawned. *)
Theorem event_without_collaborators_panics (r : t) (e : env) :
  (forall name ver,
      pluginManager r = None ->
      exists l, is_log l
        /\ handle (control_event.PublisherSubscriptionEvent name ver) (r, e)
           = (Panicked nil_deref_msg, (r, emits [l] e)))
  /\ (forall ns ver,
        metricCatalog r = None ->
        exists l, is_log l
          /\ handle (control_event.MetricSubscriptionEvent ns ver) (r, e)
             = (Panicked nil_deref_msg, (r, emits [l] e)))
  /\ (forall ns ver mc mt,
        metricCatalog r = Some mc ->
        Get mc ns ver = inl mt ->
        granted_collector r (Plugin mt) = true ->
        pluginManager r = None ->
        exists logs, Forall is_log logs
          /\ handle (control_event.MetricSubscriptionEvent ns ver) (r, e)
             = (Panicked nil_deref_msg, (r, emits logs e))).
Proof.
  split; [|split].
  - intros name ver Hpm. unfold HandleGomitEvent. rewrite Hpm.
    eexists. split; [|rewrite emit_emits; reflexivity]. unfold is_log. eauto.
  - intros ns ver Hmc. unfold HandleGomitEvent. rewrite Hmc.
    eexists. split; [|rewrite emit_emits; reflexivity]. unfold is_log. eauto.
  - intros ns ver mc mt Hmc HG Hok Hpm.
    unfold HandleGomitEvent, granted_collector in *. rewrite Hmc, HG.
    destruct (checkPool_log
                (availablePlugins.GetPluginPool
                   (availablePlugins.Collectors (availablePlugins r))
                   (Key (Plugin mt)))
                (Key (Plugin mt))) as (l & Hl & Hlog).
    destruct (checkPool _ (Key (Plugin mt))) as [ok logs].
    cbn [fst snd] in *. subst ok logs. cbn [negb]. rewrite Hpm.
    exists [ELog LDebug "runner.events"
              "handling metric subscription event (%s v%d)"
              [AStr (Join ns "/"); AInt ver];
            ELog LDebug "runner.events" "plugin is (%s) for (%s v%d)"
              [AStr (Key (Plugin mt)); AStr (Join ns "/"); AInt ver];
            l].
    split; [repeat constructor; first [exact Hlog|unfold is_log; eauto]|].
    rewrite !emit_emits, !emits_emits. reflexivity.
Qed.

End MetricEvent.

Lemma metric_event_dropped_witness :
  exists l, runner.is_log l
    /\ runner.HandleGomitEvent Samples.newAvailablePlugin
         MoreSamples.all_healthy
         (control_event.MetricSubscriptionEvent ["intel"; "bar"] 1)
         (MoreSamples.collecting availablePlugins.new, env0)
       = (Done (),
          (MoreSamples.collecting availablePlugins.new,
           emits [l; EPrintln "metric not found"] env0)).
Proof.
  apply (proj1 (metric_event_dropped Samples.newAvailablePlugin
                  MoreSamples.all_healthy
                  (MoreSamples.collecting availablePlugins.new) env0
                  MoreSamples.catalog ["intel"; "bar"] 1 eq_refl)).
  reflexivity.
Defined.

Lemma metric_event_starts_one_witness :
  fst (runner.HandleGomitEvent Samples.newAvailablePlugin
         MoreSamples.all_healthy
         (control_event.MetricSubscriptionEvent ["intel"; "foo"] 1)
         (MoreSamples.collecting availablePlugins.new, env0))
  = Done ().
Proof.
  destruct (metric_event_starts_one Samples.newAvailablePlugin
              MoreSamples.all_healthy
              (MoreSamples.collecting availablePlugins.new) env0
              MoreSamples.catalog Samples.manager ["intel"; "foo"] 1
              (runner.mkMetric MoreSamples.foo)
              MoreSamples.healthy_collector None
              eq_refl eq_refl eq_refl ltac:(vm_compute; reflexivity) eq_refl)
    as (logs & _ & H).
  cbn zeta in H. rewrite H. reflexivity.
Defined.

Lemma event_without_collaborators_panics_witness :
  exists l, runner.is_log l
    /\ runner.HandleGomitEvent Samples.newAvailablePlugin
         MoreSamples.all_healthy
         (control_event.PublisherSubscriptionEvent "bar" 2)
         (runner.newRunner, env0)
       = (Panicked nil_deref_msg, (runner.newRunner, emits [l] env0)).
Proof.
  exact (proj1 (event_without_collaborators_panics Samples.newAvailablePlugin
                  MoreSamples.all_healthy runner.newRunner env0)
           "bar" 2%Z eq_refl).
Defined.

(** ** What the handler leaves alone *)

Section HandlerFrame.

Import runner.

Variable newAvailablePlugin :
  plugin.Response -> Z -> gomit.Emitter -> availablePlugin.t + error.
Variable NewExecutablePlugin :
  list string -> string -> plugin.executablePlugin * option error.

Local Abbreviation startPlugin := (runner.startPlugin newAvailablePlugin).
Local Abbreviation handle :=
  (HandleGomitEvent newAvailablePlugin NewExecutablePlugin).

Lemma frame_refl (s : t * env) : handling_frame s s.
Proof.
  unfold handling_frame. repeat split; try reflexivity.
  exists []. rewrite app_nil_r. reflexivity.
Qed.

Lemma frame_trans (s1 s2 s3 : t * env) :
  handling_frame s1 s2 -> handling_frame s2 s3 ->
  handling_frame s1 s3.
Proof.
  unfold handling_frame.
  intros (A1 & A2 & A3 & A4 & A6 & A7 & tr1 & A8)
         (B1 & B2 & B3 & B4 & B6 & B7 & tr2 & B8).
  repeat split; try congruence.
  exists (tr1 ++ tr2). rewrite B8, A8, app_assoc. reflexivity.
Qed.

Lemma frame_emits (r : t) (e : env) (l : list event) :
  handling_frame (r, e) (r, emits l e).
Proof.
  unfold handling_frame. cbn. repeat split; try reflexivity. eauto.
Qed.

Lemma frame_emit (r : t) (e : env) (ev : event) :
  handling_frame (r, e) (r, emit ev e).
Proof. rewrite emit_emits. apply frame_emits. Qed.

Lemma frame_start (p : plugin.executablePlugin) (r : t) (e : env)
    (l : list event) :
  handling_frame (r, e) (snd (startPlugin p (r, emits l e))).
Proof.
  eapply frame_trans; [apply frame_emits|apply startPlugin_frame].
Qed.

Lemma body_frame (pm : managesPlugins) (name : string) (ver : Z)
    (lp : loadedPlugin) (s : t * env) :
  handling_frame s
    (snd (publisherBody newAvailablePlugin NewExecutablePlugin pm name ver lp s)).
Proof.
  destruct s as [r e].
  destruct (decide (matches name ver lp)) as [Hm|Hm].
  2:{ rewrite body_other by exact Hm. apply frame_emits. }
  destruct (granted r lp) eqn:Hg.
  - destruct (body_granted newAvailablePlugin NewExecutablePlugin pm name ver
                lp r e Hm Hg) as (l & _ & Hb).
    cbn zeta in Hb. rewrite Hb.
    pose proof (frame_start
                  (fst (NewExecutablePlugin (GenerateArgs pm (Path lp)) (Path lp)))
                  r e (examined name ver lp
                       ++ [l; ENewExecutablePlugin (GenerateArgs pm (Path lp))
                                (Path lp)])) as Hf.
    destruct (runner.startPlugin _ _ _) as [[ap|err] [r' e']];
      cbn [fst snd] in *; [exact Hf|].
    eapply frame_trans; [exact Hf|apply frame_emit].
  - destruct (body_denied newAvailablePlugin NewExecutablePlugin pm name ver
                lp r e Hm Hg) as (l & _ & Hb).
    rewrite Hb. apply frame_emits.
Qed.

Lemma loop_frame (pm : managesPlugins) (name : string) (ver : Z)
    (lps : list loadedPlugin) : forall s : t * env,
  handling_frame s
    (snd (publisherLoop newAvailablePlugin NewExecutablePlugin pm name ver lps s)).
Proof.
  induction lps as [|lp lps IH]; intros s; cbn [publisherLoop];
    [apply frame_refl|].
  pose proof (body_frame pm name ver lp s) as Hb.
  destruct (publisherBody _ _ pm name ver lp s) as [[| |v] s'];
    cbn [snd] in *; [|exact Hb|exact Hb].
  eapply frame_trans; [exact Hb|apply IH].
Qed.

Lemma handle_frame (body : control_event.Body) (s : t * env) :
  handling_frame s (snd (handle body s)).
Proof.
  destruct s as [r e]. destruct body as [name ver|ns ver|];
    unfold HandleGomitEvent; [| |apply frame_refl].
  - destruct (pluginManager r) as [pm|]; [|apply frame_emit].
    eapply frame_trans; [apply frame_emit|apply loop_frame].
  - destruct (metricCatalog r) as [mc|]; [|apply frame_emit].
    destruct (Get mc ns ver) as [mt|err].
    2:{ cbn [snd]. rewrite !emit_emits, emits_emits. apply frame_emits. }
    destruct (checkPool _ (Key (Plugin mt))) as [[|] logs]; cbn [negb].
    2:{ cbn [snd]. rewrite !emit_emits, !emits_emits. apply frame_emits. }
    destruct (pluginManager r) as [pm|].
    2:{ cbn [snd]. rewrite !emit_emits, !emits_emits. apply frame_emits. }
    destruct (NewExecutablePlugin _ (Path (Plugin mt))) as [h oerr].
    match goal with
    | |- context [runner.startPlugin _ h (r, ?e1)] =>
        assert (Hf : handling_frame (r, e)
                       (snd (startPlugin h (r, e1))))
    end.
    { destruct oerr; rewrite !emit_emits, !emits_emits; apply frame_start. }
    destruct (runner.startPlugin _ h _) as [[ap|err] [r' e']];
      cbn [fst snd] in *; [exact Hf|].
    eapply frame_trans; [exact Hf|apply frame_emit].
Qed.

(** X12: handling an event leaves the delegates, the emitter, the
    monitor and the metric catalog of the runner as they were, makes no
    channel, spawns no goroutine, and only appends to the trace; and so
    does the walk of the publisher branch over the loaded plugins,
    wherever in their list it starts. *)
Theorem handling_keeps_frame :
  (forall (body : control_event.Body) (s : t * env),
      handling_frame s (snd (handle body s)))
  /\ (forall (pm : managesPlugins) (name : string) (ver : Z)
             (lps : list loadedPlugin) (s : t * env),
        handling_frame s
          (snd (publisherLoop newAvailablePlugin NewExecutablePlugin pm
                  name ver lps s))).
Proof.
  split.
  - apply handle_frame.
  - intros pm name ver lps s. apply loop_frame.
Qed.

End HandlerFrame.

(** ** The capacity of the pools *)

Section Capacity.

Import runner.
Local Open Scope Z_scope.

Variable newAvailablePlugin :
  plugin.Response -> Z -> gomit.Emitter -> availablePlugin.t + error.
Variable NewExecutablePlugin :
  list string -> string -> plugin.executablePlugin * option error.

Local Abbreviation startPlugin := (runner.startPlugin newAvailablePlugin).
Local Abbreviation handle :=
  (HandleGomitEvent newAvailablePlugin NewExecutablePlugin).

(** An event for a publisher that is not loaded: every loaded plugin is
    passed over. *)
Lemma loop_no_match (pm : managesPlugins) (name : string) (ver : Z)
    (lps : list loadedPlugin) : forall (r : t) (e : env),
  Forall (fun lp => ~ matches name ver lp) lps ->
  publisherLoop newAvailablePlugin NewExecutablePlugin pm name ver lps (r, e)
  = (Done (), (r, emits (concat (examined name ver <$> lps)) e)).
Proof.
  induction lps as [|lp lps IH]; intros r e Hall; cbn [publisherLoop].
  - cbn. rewrite emits_nil. reflexivity.
  - inversion Hall as [|? ? Hlp Hlps]; subst.
    rewrite body_other by exact Hlp. rewrite (IH _ _ Hlps), emits_emits.
    reflexivity.
Qed.

(** X13: a publisher event for a name and version that no loaded plugin
    has, the empty list of loaded plugins included, is ignored: the
    handler returns, the runner is as it was, and the trace holds
    nothing but the log entry of the event and two per loaded plugin. *)
Theorem publisher_event_no_match (r : t) (e : env) (pm : managesPlugins)
    (name : string) (ver : Z) :
  pluginManager r = Some pm ->
  Forall (fun lp => ~ matches name ver lp) (LoadedPlugins pm) ->
  handle (control_event.PublisherSubscriptionEvent name ver) (r, e)
  = (Done (),
     (r,
      emits (ELog LDebug "runner.events"
               "handling publisher subscription event (%v:v%v)"
               [AStr name; AInt ver]
             :: concat (examined name ver <$> LoadedPlugins pm)) e)).
Proof.
  intros Hpm Hall. unfold HandleGomitEvent. rewrite Hpm.
  rewrite (loop_no_match pm name ver _ _ _ Hall).
  rewrite emit_emits, emits_emits. reflexivity.
Qed.

Lemma checkPool_grants (pool : option availablePlugins.pool) (key : string) :
  fst (checkPool pool key) = true ->
  match pool with
  | Some p => availablePlugins.Count p < MaximumRunningPlugins
  | None => True
  end.
Proof.
  unfold checkPool. destruct pool as [p|]; [|trivial].
  destruct (Z.leb_spec MaximumRunningPlugins (availablePlugins.Count p));
    cbn [fst]; [discriminate|auto].
Qed.

Lemma insert_pool_within_capacity (ap : availablePlugin.t)
    (tbl : gmap string (list availablePlugin.t)) :
  table_within_capacity tbl ->
  match tbl !! availablePlugin.Key ap with
  | Some p => availablePlugins.Count p < MaximumRunningPlugins
  | None => True
  end ->
  table_within_capacity (availablePlugins.insert_pool ap tbl).
Proof.
  intros Hcap Hroom key p Hp. unfold availablePlugins.insert_pool in Hp.
  destruct (decide (availablePlugin.Key ap = key)) as [<-|Hne].
  - rewrite lookup_insert_eq in Hp. injection Hp as <-.
    unfold availablePlugins.Count in *. rewrite length_app. cbn [length].
    destruct (tbl !! availablePlugin.Key ap) as [p0|]; cbn;
      unfold MaximumRunningPlugins in *; lia.
  - rewrite lookup_insert_ne in Hp by exact Hne. eapply Hcap; eauto.
Qed.

Lemma Insert_within_capacity (ap : availablePlugin.t) (a : availablePlugins.t) :
  within_capacity a ->
  match table_of (availablePlugin.Type_ ap) a !! availablePlugin.Key ap with
  | Some p => availablePlugins.Count p < MaximumRunningPlugins
  | None => True
  end ->
  within_capacity (availablePlugins.Insert ap a).
Proof.
  intros (Hc & Hp & Hb) Hroom. unfold availablePlugins.Insert, within_capacity.
  destruct (availablePlugin.Type_ ap); cbn [table_of] in Hroom; cbn;
    repeat split; auto using insert_pool_within_capacity.
Qed.

(** The start of a handle for which admission was granted keeps every
    pool within capacity, when the instance is filed where admission
    looked. *)
Lemma start_within_capacity (p : plugin.executablePlugin) (r : t) (e : env)
    (ty : plugin.PluginType) (key : string) :
  within_capacity (availablePlugins r) ->
  fst (checkPool
         (availablePlugins.GetPluginPool (table_of ty (availablePlugins r)) key)
         key) = true ->
  (forall resp id ap,
      handshake_succeeds p resp ->
      newAvailablePlugin resp id (emitter r) = inl ap ->
      availablePlugin.Type_ ap = ty /\ availablePlugin.Key ap = key) ->
  within_capacity (availablePlugins (fst (snd (startPlugin p (r, e))))).
Proof.
  intros Hcap Hok Hagree.
  destruct (startPlugin_registry newAvailablePlugin p r e)
    as [Heq|(resp & id & ap & Hhs & Hnew & Heq)]; rewrite Heq; [exact Hcap|].
  destruct (Hagree _ _ _ Hhs Hnew) as [Hty Hkey].
  apply Insert_within_capacity; [exact Hcap|]. rewrite Hty, Hkey.
  apply checkPool_grants in Hok. exact Hok.
Qed.

Lemma body_within_capacity (pm : managesPlugins) (name : string) (ver : Z)
    (lp : loadedPlugin) (r : t) (e : env) :
  within_capacity (availablePlugins r) ->
  lp ∈ LoadedPlugins pm ->
  publisher_instances_agree newAvailablePlugin NewExecutablePlugin pm ->
  within_capacity
    (availablePlugins
       (fst (snd (publisherBody newAvailablePlugin NewExecutablePlugin pm
                    name ver lp (r, e))))).
Proof.
  intros Hcap Hin Hagree.
  destruct (decide (matches name ver lp)) as [Hm|Hm].
  2:{ rewrite body_other by exact Hm. exact Hcap. }
  destruct (granted r lp) eqn:Hg.
  - destruct (body_granted newAvailablePlugin NewExecutablePlugin pm name ver
                lp r e Hm Hg) as (l & _ & Hb).
    cbn zeta in Hb. rewrite Hb.
    match goal with
    | |- context [runner.startPlugin _ ?h (r, ?e1)] =>
        pose proof (start_within_capacity h r e1
                      plugin.PublisherPluginType (Key lp) Hcap Hg) as Hs
    end.
    cbn beta in Hs.
    assert (Hs' := Hs (fun resp id ap Hhs Hnew =>
                         Hagree lp resp id (emitter r) ap Hin (proj1 Hm)
                           Hhs Hnew)).
    destruct (runner.startPlugin _ _ _) as [[ap|err] [r' e']];
      cbn [fst snd] in *; exact Hs'.
  - destruct (body_denied newAvailablePlugin NewExecutablePlugin pm name ver
                lp r e Hm Hg) as (l & _ & Hb).
    rewrite Hb. exact Hcap.
Qed.

Lemma loop_within_capacity (pm : managesPlugins) (name : string) (ver : Z)
    (lps : list loadedPlugin) : forall (r : t) (e : env),
  within_capacity (availablePlugins r) ->
  (forall lp, lp ∈ lps -> lp ∈ LoadedPlugins pm) ->
  publisher_instances_agree newAvailablePlugin NewExecutablePlugin pm ->
  within_capacity
    (availablePlugins
       (fst (snd (publisherLoop newAvailablePlugin NewExecutablePlugin pm
                    name ver lps (r, e))))).
Proof.
  induction lps as [|lp lps IH]; intros r e Hcap Hsub Hagree;
    cbn [publisherLoop]; [exact Hcap|].
  pose proof (body_within_capacity pm name ver lp r e Hcap
                (Hsub lp ltac:(left)) Hagree) as Hb.
  destruct (publisherBody _ _ pm name ver lp (r, e)) as [[| |v] [r' e']];
    cbn [fst snd] in *; [|exact Hb|exact Hb].
  apply IH; [exact Hb| |exact Hagree].
  intros lp' Hlp'. apply Hsub. right. exact Hlp'.
Qed.

Lemma handle_within_capacity (body : control_event.Body) (r : t) (e : env) :
  within_capacity (availablePlugins r) ->
  (forall pm,
      pluginManager r = Some pm ->
      publisher_instances_agree newAvailablePlugin NewExecutablePlugin pm) ->
  (forall pm mc,
      pluginManager r = Some pm -> metricCatalog r = Some mc ->
      collector_instances_agree newAvailablePlugin NewExecutablePlugin pm mc) ->
  within_capacity (availablePlugins (fst (snd (handle body (r, e))))).
Proof.
  intros Hcap Hpub Hcol. destruct body as [name ver|ns ver|];
    unfold HandleGomitEvent; [| |exact Hcap].
  - destruct (pluginManager r) as [pm|] eqn:Hpm; [|exact Hcap].
    apply loop_within_capacity; auto.
  - destruct (metricCatalog r) as [mc|] eqn:Hmc; [|exact Hcap].
    destruct (Get mc ns ver) as [mt|err] eqn:HG; [|exact Hcap].
    destruct (checkPool _ (Key (Plugin mt))) as [[|] logs] eqn:Hck;
      cbn [negb]; [|exact Hcap].
    destruct (pluginManager r) as [pm|] eqn:Hpm; [|exact Hcap].
    destruct (NewExecutablePlugin _ (Path (Plugin mt))) as [h oerr] eqn:HN.
    match goal with
    | |- context [runner.startPlugin _ h (r, ?e1)] =>
        pose proof (start_within_capacity h r e1
                      plugin.CollectorPluginType (Key (Plugin mt)) Hcap) as Hs
    end.
    cbn [table_of] in Hs. rewrite Hck in Hs. specialize (Hs eq_refl).
    assert (Hagree : forall resp id ap,
               handshake_succeeds h resp ->
               newAvailablePlugin resp id (emitter r) = inl ap ->
               availablePlugin.Type_ ap = plugin.CollectorPluginType
               /\ availablePlugin.Key ap = Key (Plugin mt)).
    { intros resp id ap Hhs Hnew.
      eapply (Hcol pm mc eq_refl eq_refl ns ver mt resp id (emitter r) ap HG);
        [|exact Hnew].
      rewrite HN. exact Hhs. }
    specialize (Hs Hagree).
    destruct (runner.startPlugin _ h _) as [[ap|err] [r' e']];
      cbn [fst snd] in *; exact Hs.
Qed.

(** X14: the admission check keeps the pools within capacity. If no pool
    holds more than 3 instances, and the instances the transport brings
    up are filed in the pool admission looked at (publishers under the
    key of the loaded plugin, collectors under the key of the plugin
    that serves the metric), then after the handling of an event no pool
    holds more than 3 instances; and the same holds of the walk of the
    publisher branch over the loaded plugins, wherever in their list it
    starts. *)
Theorem handling_keeps_capacity :
  (forall (body : control_event.Body) (r : t) (e : env),
      within_capacity (availablePlugins r) ->
      (forall pm,
          pluginManager r = Some pm ->
          publisher_instances_agree newAvailablePlugin NewExecutablePlugin pm) ->
      (forall pm mc,
          pluginManager r = Some pm -> metricCatalog r = Some mc ->
          collector_instances_agree newAvailablePlugin NewExecutablePlugin
            pm mc) ->
      within_capacity (availablePlugins (fst (snd (handle body (r, e))))))
  /\ (forall (pm : managesPlugins) (name : string) (ver : Z)
             (lps : list loadedPlugin) (r : t) (e : env),
        within_capacity (availablePlugins r) ->
        (forall lp, lp ∈ lps -> lp ∈ LoadedPlugins pm) ->
        publisher_instances_agree newAvailablePlugin NewExecutablePlugin pm ->
        within_capacity
          (availablePlugins
             (fst (snd (publisherLoop newAvailablePlugin NewExecutablePlugin
                          pm name ver lps (r, e)))))).
Proof.
  split.
  - intros body r e. apply handle_within_capacity.
  - intros pm name ver lps r e. apply loop_within_capacity.
Qed.

End Capacity.

Lemma publisher_event_no_match_witness :
  fst (runner.HandleGomitEvent Samples.newAvailablePlugin Samples.all_time_out
         (control_event.PublisherSubscriptionEvent "baz" 1)
         (Samples.with_manager availablePlugins.new, env0))
  = Done ()
  /\ fst (snd (runner.HandleGomitEvent Samples.newAvailablePlugin
                 Samples.all_time_out
                 (control_event.PublisherSubscriptionEvent "baz" 1)
                 (Samples.with_manager availablePlugins.new, env0)))
     = Samples.with_manager availablePlugins.new.
Proof.
  assert (H : Forall (fun lp => ~ runner.matches "baz" 1 lp)
                (runner.LoadedPlugins Samples.manager)).
  { repeat constructor; intros (_ & Hn & _); discriminate Hn. }
  rewrite (publisher_event_no_match Samples.newAvailablePlugin
             Samples.all_time_out (Samples.with_manager availablePlugins.new)
             env0 Samples.manager "baz" 1 eq_refl H).
  split; reflexivity.
Defined.

Lemma handling_keeps_capacity_witness :
  within_capacity
    (runner.availablePlugins
       (fst (snd (runner.HandleGomitEvent Samples.newAvailablePlugin
                    MoreSamples.by_path
                    (control_event.PublisherSubscriptionEvent "bar" 2)
                    (MoreSamples.collecting availablePlugins.new, env0))))).
Proof.
  apply (proj1 (handling_keeps_capacity Samples.newAvailablePlugin
                  MoreSamples.by_path)).
  - repeat split; intros key p Hp;
      change ((∅ : gmap string (list availablePlugin.t)) !! key = Some p) in Hp;
      rewrite lookup_empty in Hp; discriminate Hp.
  - intros pm Hpm lp resp id em ap Hin Hty (_ & Hw & _) Hnew.
    injection Hpm as <-. cbn in Hin.
    assert (Hlp : lp = Samples.bar_a \/ lp = Samples.bar_b).
    { apply elem_of_cons in Hin as [->|Hin]; [auto|].
      apply elem_of_cons in Hin as [->|Hin]; [auto|].
      apply not_elem_of_nil in Hin. destruct Hin. }
    destruct Hlp as [-> | ->]; cbn in Hw; injection Hw as <-;
      cbn in Hnew; injection Hnew as <-; split; reflexivity.
  - intros pm mc Hpm Hmc ns ver mt resp id em ap HG (_ & Hw & _) Hnew.
    injection Hpm as <-. injection Hmc as <-.
    cbn in HG. destruct (decide _) in HG; [|discriminate HG].
    injection HG as <-. cbn in Hw. injection Hw as <-.
    cbn in Hnew. injection Hnew as <-. split; reflexivity.
Defined.

(** ** A restart that overtakes the old goroutine *)

(** X15: the state of a restarted monitor cannot be trusted. From any
    state there is a run of [Start], [Stop], [Start] without a panic in
    which the goroutine of the first [Start], woken by the closed channel
    only after the second [Start], writes [MonitorStopped]: the run ends
    with the state [MonitorStopped] while the [quit] channel is open and
    the goroutine of the second [Start] is in its loop. *)
Theorem restart_can_end_Stopped (aps : availablePlugins.t)
    (m : monitor.t) (e : env) :
  exists s',
    monitor.run aps [monitor.OpStart; monitor.OpStop; monitor.OpStart]
      (m, e) (Done ()) s'
    /\ monitor.State (fst s') = monitor.MonitorStopped
    /\ monitor.quit (fst s') = Some (S (length (chans e)))
    /\ chans (snd s') !! S (length (chans e)) = Some false
    /\ goroutines (snd s') !! S (length (goroutines e)) = Some GSelect.
Proof.
  set (g := length (goroutines e)). set (c := length (chans e)).
  set (tr := trace e ++ [ENewTicker monitor.DefaultMonitorDuration]).
  (* after the first Start, the goroutine enters its select *)
  set (s1 := (monitor.mk monitor.MonitorStarted (Some c),
              mkEnv (chans e ++ [false])
                (<[g := GWait (Some c)]> (goroutines e ++ [GSelect])) tr)).
  (* after Stop and the second Start *)
  set (s2 := (monitor.mk monitor.MonitorStarted (Some (S c)),
              mkEnv (<[c := true]> (chans e ++ [false]) ++ [false])
                (<[g := GWait (Some c)]> (goroutines e ++ [GSelect]) ++ [GSelect])
                (tr ++ [ENewTicker monitor.DefaultMonitorDuration]))).
  assert (Hc : (chans e ++ [false]) !! c = Some false).
  { rewrite lookup_app_r by (unfold c; lia). unfold c.
    rewrite Nat.sub_diag. reflexivity. }
  assert (Hlc : length (<[c := true]> (chans e ++ [false])) = S c).
  { rewrite length_insert, length_app. cbn. unfold c. lia. }
  assert (Hlg : length (<[g := GWait (Some c)]> (goroutines e ++ [GSelect]))
                = S g).
  { rewrite length_insert, length_app. cbn. unfold g. lia. }
  eexists. split.
  - eapply monitor.run_cons; [apply monitor.steps_refl|reflexivity|].
    eapply (monitor.run_cons aps _ _ _ s1).
    + eapply monitor.steps_step; [|apply monitor.steps_refl].
      apply (monitor.step_enter aps
               (monitor.mk monitor.MonitorStarted (Some c))
               (mkEnv (chans e ++ [false]) (goroutines e ++ [GSelect]) tr) g).
      cbn [goroutines].
      rewrite lookup_app_r by (unfold g; lia). unfold g.
      rewrite Nat.sub_diag. reflexivity.
    + cbn [monitor.call fst snd]. unfold s1.
      apply (Stop_open _ _ c); [reflexivity|exact Hc].
    + eapply (monitor.run_cons aps _ _ _ _ s2);
        [apply monitor.steps_refl| |].
      * cbn [monitor.call fst snd]. unfold monitor.Start, s2.
        cbn [emit chans goroutines trace]. rewrite Hlc. reflexivity.
      * apply monitor.run_nil.
        eapply monitor.steps_step; [|apply monitor.steps_refl].
        apply (monitor.step_quit aps
                 (monitor.mk monitor.MonitorStarted (Some (S c)))
                 (mkEnv (<[c := true]> (chans e ++ [false]) ++ [false])
                    (<[g := GWait (Some c)]> (goroutines e ++ [GSelect])
                     ++ [GSelect])
                    (tr ++ [ENewTicker monitor.DefaultMonitorDuration])) g c).
        -- cbn [goroutines]. rewrite lookup_app_l by lia.
           apply list_lookup_insert_eq. rewrite length_app. cbn.
           unfold g. lia.
        -- cbn [chans]. rewrite lookup_app_l by lia.
           apply list_lookup_insert_eq. rewrite length_app. cbn.
           unfold c. lia.
  - cbn [fst snd monitor.State monitor.quit chans goroutines].
    split; [reflexivity|]. split; [reflexivity|]. split.
    + rewrite lookup_app_r by lia. rewrite Hlc, Nat.sub_diag. reflexivity.
    + rewrite list_lookup_insert_ne by lia.
      rewrite lookup_app_r by lia. rewrite Hlg, Nat.sub_diag. reflexivity.
Qed.
